(** * The indexing node of the OpenCL kernel generator

    A shallow embedding of
    [stan/math/opencl/kernel_generator/indexing.hpp]: the class template
    [indexing_<T_mat, T_row_index, T_col_index>] and the factory
    [indexing(mat, row_index, col_index)].

    The operand types are template parameters of the class; here they are
    types carrying an instance of the class [operation_cl] (what the node
    asks of an index operand) or [operation_cl_lhs] (what it asks of the
    indexed matrix).  Member functions are written in a small state monad
    over the variables a call can reach by reference; every member call on
    an operand goes through one combinator, which performs the call and
    records it, so that "which operand is visited, in which order, against
    which map" is an observable of the model.

    An object is a value: a node holds its three operands, and a member
    function hands back the object it was called on together with the
    arguments it took by reference.  The address of an object, the key of
    the deduplication maps, is an argument of the member functions that
    use it (the [this] of C++); the operands of the object at [this] live
    at [arg_addr this i].  An operand held by reference and shared with
    another expression is outside this model.

    C++ [int] is modelled by [Z]; signed overflow is undefined in C++, so
    the code has no wrap-around of its own to write out.  An exception is
    a result of the function that throws it. *)

From stdpp Require Import base numbers option list strings gmap pretty.

Open Scope Z_scope.

(** ** Collaborators

    Types and constants declared in headers that are not part of the node
    itself.  The node only passes them along. *)

(** [const void*]: the key of [std::map<const void*, const char*>]. *)
Definition addr := N.

(** [std::map<const void*, const char*>]. *)
Abbreviation dedup_map := (gmap addr string).

(** [std::map<const void*, int>]. *)
Abbreviation id_map_t := (gmap addr Z).

(** [std::numeric_limits<int>::min()] and [max()]. *)
Definition int_min : Z := -2147483648.
Definition int_max : Z := 2147483647.

Class kernel_generator := {
  (** [kernel_parts], its value-initialised instance [kernel_parts{}] and
      its [operator+]. *)
  kernel_parts : Type;
  kernel_parts_empty : kernel_parts;
  kernel_parts_plus : kernel_parts -> kernel_parts -> kernel_parts;
  (** [name_generator], [cl::Kernel], [cl::Event]. *)
  name_generator : Type;
  cl_Kernel : Type;
  cl_Event : Type;
  (** [operation_cl<...>::dynamic], the number of rows or columns reported
      by an expression whose size is taken from its surroundings. *)
  dynamic : Z;
}.

Infix "+k" := kernel_parts_plus (at level 50, left associativity).

(** *** Errors *)

(** [std::invalid_argument] as thrown by [check_size_match]: the function
    name and the two labelled sizes. *)
Inductive exception :=
| invalid_argument (function : string)
    (expr_i name_i : string) (i : Z) (expr_j name_j : string) (j : Z).

(** A computation that may throw. *)
Definition result (A : Type) : Type := exception + A.

#[global] Instance result_ret : MRet result := λ A a, inr a.
#[global] Instance result_bind : MBind result :=
  λ A B k m, match m with inl e => inl e | inr a => k a end.
#[global] Instance result_throw : MThrow exception result := λ A e, inl e.

Definition is_ok {A} (r : result A) : bool :=
  match r with inr _ => true | inl _ => false end.

(** Modelled from the spec: [check_size_match] (declared in
    [stan/math/prim/err], not among the sources).  "A size-check utility
    taking (context_label, lhs_label, lhs_value, rhs_label, rhs_value) and
    failing with a descriptive invalid-dimension error when values
    differ." *)
Definition check_size_match (function : string)
    (expr_i name_i : string) (i : Z) (expr_j name_j : string) (j : Z)
  : result unit :=
  if decide (i = j) then mret ()
  else mthrow (invalid_argument function expr_i name_i i expr_j name_j j).

(** ** What the node asks of its operands *)

Section operand_contract.
Context `{kernel_generator}.

(** Member functions the node calls on all three operands.  Those that
    consult a deduplication map take the address of the operand ([this]).
    Each takes the operand's own state and hands back what it may have
    changed: the operand (the [mutable] members of a [const] object) and
    the arguments passed by non-const reference. *)
Class operation_cl (T : Type) := {
  var_name_of : T -> string;
  rows : T -> Z;
  cols : T -> Z;
  deep_copy : T -> result T;
  get_kernel_parts :
    addr -> T -> dedup_map -> name_generator -> string -> string -> bool ->
    kernel_parts * (T * dedup_map * name_generator);
  set_args :
    addr -> T -> dedup_map -> cl_Kernel * Z ->
    unit * (T * dedup_map * (cl_Kernel * Z));
  add_read_event : T -> cl_Event -> T;
  get_unique_matrix_accesses :
    T -> list Z -> id_map_t -> Z -> list Z * id_map_t * Z;
}.

(** Member functions the node calls on the indexed matrix only. *)
Class operation_cl_lhs (T : Type) := {
  operation_cl_lhs_base :: operation_cl T;
  get_kernel_parts_lhs :
    addr -> T -> dedup_map -> name_generator -> string -> string ->
    kernel_parts * (T * dedup_map * name_generator);
  set_view : T -> Z -> Z -> Z -> Z -> T;
  add_write_event : T -> cl_Event -> T;
}.

End operand_contract.

(** ** Calls and the variables they reach *)

(** [get_arg<0>], [get_arg<1>], [get_arg<2>]. *)
Inductive arg_index := I0 | I1 | I2.

(** Where the operands of an object live: the address of element [i] of
    the argument tuple of the object at [this]. *)
Class layout := arg_addr : addr -> arg_index -> addr.

(** The three deduplication maps a member function of the node can name:
    its parameter [generated], the member [generated_] and the local
    [generated2] of [set_args]. *)
Inductive map_ref := ref_generated | ref_generated_ | ref_generated2.

(** The two groups of variables [get_unique_matrix_accesses] can name:
    its parameters [uids], [id_map], [next_id] and its locals [uids2],
    [id_map2], [next_id2]. *)
Inductive ids_ref := ref_ids | ref_ids2.

Section calls.
Context `{kernel_generator}.

(** A member call on an operand: which operand, which member function,
    the arguments passed by value, and for the arguments passed by
    reference their names and what they hold when the call is made. *)
Inductive call :=
| call_get_kernel_parts (i : arg_index)
    (generated : map_ref) (holding : dedup_map)
    (row_index_name col_index_name : string) (view_handled : bool)
| call_get_kernel_parts_lhs (i : arg_index)
    (generated : map_ref) (holding : dedup_map)
    (row_index_name col_index_name : string)
| call_set_args (i : arg_index) (generated : map_ref) (holding : dedup_map)
| call_set_view (i : arg_index)
    (bottom_diagonal top_diagonal bottom_zero_diagonal top_zero_diagonal : Z)
| call_add_read_event (i : arg_index) (e : cl_Event)
| call_add_write_event (i : arg_index) (e : cl_Event)
| call_get_unique_matrix_accesses (i : arg_index)
    (ids : ids_ref) (holding : list Z * id_map_t * Z).

(** The operand a call is made on. *)
Definition callee (c : call) : arg_index :=
  match c with
  | call_get_kernel_parts i _ _ _ _ _ | call_get_kernel_parts_lhs i _ _ _ _
  | call_set_args i _ _ | call_set_view i _ _ _ _
  | call_add_read_event i _ | call_add_write_event i _
  | call_get_unique_matrix_accesses i _ _ => i
  end.




(** The operand that receives a write event, if the call gives one. *)
Definition write_event_callee (c : call) : option arg_index :=
  match c with
  | call_add_write_event i _ => Some i
  | _ => None
  end.


(** State passing with a record of the operand calls made. *)
Definition M (S X : Type) : Type := S -> X * S * list call.

#[global] Instance M_ret {S} : MRet (M S) := λ X x s, (x, s, []).
#[global] Instance M_bind {S} : MBind (M S) := λ X Y k m s,
  let '(x, s1, l1) := m s in
  let '(y, s2, l2) := k x s1 in
  (y, s2, l1 ++ l2).

Definition gets {S X} (f : S -> X) : M S X := λ s, (f s, s, []).
Definition modify {S} (f : S -> S) : M S unit := λ s, ((), f s, []).

Definition result_of {S X} (r : X * S * list call) : X := r.1.1.
Definition state_of {S X} (r : X * S * list call) : S := r.1.2.
Definition calls_of {S X} (r : X * S * list call) : list call := r.2.

End calls.

(** ** The node *)

Section indexing.
Context `{kernel_generator} `{layout}.
Context {T_mat T_row_index T_col_index : Type}.
Context `{!operation_cl_lhs T_mat, !operation_cl T_row_index,
          !operation_cl T_col_index}.

(** The object: the operands held by the base class, the inherited
    [var_name_] and the node's own [generated_]. *)
Record indexing_ := {
  mat_ : T_mat;
  row_index_ : T_row_index;
  col_index_ : T_col_index;
  var_name_ : string;
  generated_ : dedup_map;
}.

Definition arg_type (i : arg_index) : Type :=
  match i with I0 => T_mat | I1 => T_row_index | I2 => T_col_index end.

#[local] Instance arg_operation_cl (i : arg_index) : operation_cl (arg_type i) :=
  match i with
  | I0 => operation_cl_lhs_base
  | I1 => _
  | I2 => _
  end.

Definition get_arg (i : arg_index) (self : indexing_) : arg_type i :=
  match i with
  | I0 => mat_ self
  | I1 => row_index_ self
  | I2 => col_index_ self
  end.

Definition put_arg (i : arg_index) : arg_type i -> indexing_ -> indexing_ :=
  match i with
  | I0 => λ a self,
      {| mat_ := a; row_index_ := row_index_ self;
         col_index_ := col_index_ self;
         var_name_ := var_name_ self; generated_ := generated_ self |}
  | I1 => λ a self,
      {| mat_ := mat_ self; row_index_ := a;
         col_index_ := col_index_ self;
         var_name_ := var_name_ self; generated_ := generated_ self |}
  | I2 => λ a self,
      {| mat_ := mat_ self; row_index_ := row_index_ self;
         col_index_ := a;
         var_name_ := var_name_ self; generated_ := generated_ self |}
  end.

Definition put_var_name_ (v : string) (self : indexing_) : indexing_ :=
  {| mat_ := mat_ self; row_index_ := row_index_ self;
     col_index_ := col_index_ self;
     var_name_ := v; generated_ := generated_ self |}.

Definition put_generated_ (g : dedup_map) (self : indexing_) : indexing_ :=
  {| mat_ := mat_ self; row_index_ := row_index_ self;
     col_index_ := col_index_ self;
     var_name_ := var_name_ self; generated_ := g |}.

(** *** Constructor *)
Definition indexing_new (mat : T_mat) (row_index : T_row_index)
    (col_index : T_col_index) : result indexing_ :=
  let self := {| mat_ := mat; row_index_ := row_index;
                 col_index_ := col_index;
                 var_name_ := ""; generated_ := ∅ |} in
  let function := "indexing"%string in
  (if bool_decide (rows col_index ≠ dynamic)
      && bool_decide (rows row_index ≠ dynamic)
   then check_size_match function "Rows of " "col_index" (rows col_index)
                         "rows of " "row_index" (rows row_index)
   else mret ());;
  (if bool_decide (cols col_index ≠ dynamic)
      && bool_decide (cols row_index ≠ dynamic)
   then check_size_match function "Columns of " "col_index"
                         (cols col_index)
                         "columns of " "row_index" (cols row_index)
   else mret ());;
  mret self.

(** *** [deep_copy] *)
Definition indexing_deep_copy (self : indexing_) : result indexing_ :=
  mat_copy ← deep_copy (get_arg I0 self);
  row_index_copy ← deep_copy (get_arg I1 self);
  col_index_copy ← deep_copy (get_arg I2 self);
  indexing_new mat_copy row_index_copy col_index_copy.

(** *** The frame of a call that consults deduplication maps

    [*this], the parameter [generated], the local [generated2], and the
    remaining arguments passed by reference: the name generator for code
    generation, the kernel and the argument counter for [set_args]. *)
Record frame (R : Type) := {
  f_self : indexing_;
  f_generated : dedup_map;
  f_generated2 : dedup_map;
  f_rest : R;
}.
Arguments f_self {R}.
Arguments f_generated {R}.
Arguments f_generated2 {R}.
Arguments f_rest {R}.

Definition map_get {R} (g : map_ref) (fr : frame R) : dedup_map :=
  match g with
  | ref_generated => f_generated fr
  | ref_generated_ => generated_ (f_self fr)
  | ref_generated2 => f_generated2 fr
  end.

Definition map_put {R} (g : map_ref) (m : dedup_map) (fr : frame R) : frame R :=
  match g with
  | ref_generated =>
      {| f_self := f_self fr; f_generated := m;
         f_generated2 := f_generated2 fr; f_rest := f_rest fr |}
  | ref_generated_ =>
      {| f_self := put_generated_ m (f_self fr);
         f_generated := f_generated fr;
         f_generated2 := f_generated2 fr; f_rest := f_rest fr |}
  | ref_generated2 =>
      {| f_self := f_self fr; f_generated := f_generated fr;
         f_generated2 := m; f_rest := f_rest fr |}
  end.

Definition self_put {R} (self : indexing_) (fr : frame R) : frame R :=
  {| f_self := self; f_generated := f_generated fr;
     f_generated2 := f_generated2 fr; f_rest := f_rest fr |}.

Definition rest_put {R} (r : R) (fr : frame R) : frame R :=
  {| f_self := f_self fr; f_generated := f_generated fr;
     f_generated2 := f_generated2 fr; f_rest := r |}.

(** [g.count(key)] *)
Definition count {R} (g : map_ref) (key : addr) : M (frame R) Z :=
  gets (λ fr, match map_get g fr !! key with Some _ => 1 | None => 0 end).

(** [g[key] = value] *)
Definition assign {R} (g : map_ref) (key : addr) (value : string)
  : M (frame R) unit :=
  modify (λ fr, map_put g (<[key := value]> (map_get g fr)) fr).

(** [g.clear()], and the declaration of an empty map. *)
Definition clear {R} (g : map_ref) : M (frame R) unit :=
  modify (map_put g ∅).

(** [get_arg<i>().var_name_] *)
Definition arg_var_name {R} (i : arg_index) : M (frame R) string :=
  gets (λ fr, var_name_of (get_arg i (f_self fr))).

(** [var_name_ = v] *)
Definition set_var_name_ {R} (v : string) : M (frame R) unit :=
  modify (λ fr, self_put (put_var_name_ v (f_self fr)) fr).

(** A member call on operand [i] that is handed the map named [g] and the
    remaining by-reference arguments: the call is made on the current
    values, what it hands back is stored, and the call is recorded. *)
Definition visit {R X} (c : dedup_map -> call) (this : addr) (i : arg_index)
    (g : map_ref)
    (f : addr -> arg_type i -> dedup_map -> R ->
         X * (arg_type i * dedup_map * R))
  : M (frame R) X :=
  λ fr,
    let '(x, (a, m, r)) :=
      f (arg_addr this i) (get_arg i (f_self fr)) (map_get g fr) (f_rest fr) in
    (x, rest_put r (map_put g m (self_put (put_arg i a (f_self fr)) fr)),
     [c (map_get g fr)]).

Definition visit_get_kernel_parts (this : addr) (i : arg_index)
    (generated : map_ref) (row_index_name col_index_name : string)
    (view_handled : bool) : M (frame name_generator) kernel_parts :=
  visit (λ holding, call_get_kernel_parts i generated holding
                      row_index_name col_index_name view_handled)
    this i generated
    (λ a t g name_gen,
       get_kernel_parts a t g name_gen row_index_name col_index_name
         view_handled).

Definition visit_get_kernel_parts_lhs (this : addr) (generated : map_ref)
    (row_index_name col_index_name : string)
  : M (frame name_generator) kernel_parts :=
  visit (λ holding, call_get_kernel_parts_lhs I0 generated holding
                      row_index_name col_index_name)
    this I0 generated
    (λ a t g name_gen,
       get_kernel_parts_lhs a t g name_gen row_index_name col_index_name).

Definition visit_set_args (this : addr) (i : arg_index) (generated : map_ref)
  : M (frame (cl_Kernel * Z)) unit :=
  visit (call_set_args i generated) this i generated set_args.

(** *** [get_kernel_parts] *)
Definition indexing_get_kernel_parts (this : addr)
    (row_index_name col_index_name : string) (view_handled : bool)
  : M (frame name_generator) kernel_parts :=
  n ← count ref_generated this;
  if decide (n = 0) then
    assign ref_generated this "";;
    clear ref_generated_;;
    parts_row_idx ← visit_get_kernel_parts this I1 ref_generated
                      row_index_name col_index_name view_handled;
    parts_col_idx ← visit_get_kernel_parts this I2 ref_generated
                      row_index_name col_index_name view_handled;
    row_index_var_name ← arg_var_name I1;
    col_index_var_name ← arg_var_name I2;
    parts_mat ← visit_get_kernel_parts this I0 ref_generated_
                  row_index_var_name col_index_var_name false;
    mat_var_name ← arg_var_name I0;
    set_var_name_ mat_var_name;;
    mret (parts_row_idx +k parts_col_idx +k parts_mat)
  else
    mret kernel_parts_empty.

(** *** [get_kernel_parts_lhs] *)
Definition indexing_get_kernel_parts_lhs (this : addr)
    (row_index_name col_index_name : string)
  : M (frame name_generator) kernel_parts :=
  n ← count ref_generated this;
  (if decide (n = 0) then
     assign ref_generated this "";;
     clear ref_generated_
   else mret ());;
  parts_row_idx ← visit_get_kernel_parts this I1 ref_generated
                    row_index_name col_index_name false;
  parts_col_idx ← visit_get_kernel_parts this I2 ref_generated
                    row_index_name col_index_name false;
  row_index_var_name ← arg_var_name I1;
  col_index_var_name ← arg_var_name I2;
  parts_mat ← visit_get_kernel_parts_lhs this ref_generated_
                row_index_var_name col_index_var_name;
  mat_var_name ← arg_var_name I0;
  set_var_name_ mat_var_name;;
  mret (parts_row_idx +k parts_col_idx +k parts_mat).

(** *** [set_args] *)
Definition indexing_set_args (this : addr) : M (frame (cl_Kernel * Z)) unit :=
  n ← count ref_generated this;
  if decide (n = 0) then
    assign ref_generated this "";;
    visit_set_args this I1 ref_generated;;
    visit_set_args this I2 ref_generated;;
    clear ref_generated2;;
    visit_set_args this I0 ref_generated2
  else
    mret ().

(** *** [rows()] and [cols()] *)
Definition indexing_rows (self : indexing_) : Z :=
  Z.max (rows (get_arg I1 self)) (rows (get_arg I2 self)).

Definition indexing_cols (self : indexing_) : Z :=
  Z.max (cols (get_arg I1 self)) (cols (get_arg I2 self)).

(** *** [set_view], [add_write_event]

    Member calls that take no map: the state is the object alone. *)
Definition visit_self (c : call) (i : arg_index)
    (f : arg_type i -> arg_type i) : M indexing_ unit :=
  λ self, ((), put_arg i (f (get_arg i self)) self, [c]).

Definition visit_set_view
    (bottom_diagonal top_diagonal bottom_zero_diagonal top_zero_diagonal : Z)
  : M indexing_ unit :=
  visit_self (call_set_view I0 bottom_diagonal top_diagonal
                bottom_zero_diagonal top_zero_diagonal) I0
    (λ t, set_view t bottom_diagonal top_diagonal
            bottom_zero_diagonal top_zero_diagonal).

Definition visit_add_read_event (i : arg_index) (e : cl_Event)
  : M indexing_ unit :=
  visit_self (call_add_read_event i e) i (λ t, add_read_event t e).

Definition visit_add_write_event (e : cl_Event) : M indexing_ unit :=
  visit_self (call_add_write_event I0 e) I0 (λ t, add_write_event t e).

Definition indexing_set_view
    (bottom_diagonal top_diagonal bottom_zero_diagonal top_zero_diagonal : Z)
  : M indexing_ unit :=
  visit_set_view int_min int_max int_min int_max.

Definition indexing_add_write_event (e : cl_Event) : M indexing_ unit :=
  visit_add_read_event I1 e;;
  visit_add_read_event I2 e;;
  visit_add_write_event e.

(** *** [extreme_diagonals] *)
Definition indexing_extreme_diagonals (self : indexing_) : Z * Z :=
  (int_min, int_max).

(** *** [check_assign_dimensions] *)
Definition indexing_check_assign_dimensions (self : indexing_)
    (rows cols : Z) : result unit :=
  check_size_match "indexing_.check_assign_dimensions" "Rows of "
    "indexing" (indexing_rows self) "rows of " "expression" rows;;
  check_size_match "indexing_.check_assign_dimensions" "Columns of "
    "indexing" (indexing_cols self) "columns of " "expression" cols.

(** *** [get_unique_matrix_accesses]

    The member function is [const] and the operands' own function hands
    back no operand, so the object is read only; the state is the
    parameters [uids], [id_map], [next_id] and the locals [uids2],
    [id_map2], [next_id2]. *)
Record ids_frame := {
  uids : list Z;
  id_map : id_map_t;
  next_id : Z;
  uids2 : list Z;
  id_map2 : id_map_t;
  next_id2 : Z;
}.

Definition ids_get (r : ids_ref) (fr : ids_frame) : list Z * id_map_t * Z :=
  match r with
  | ref_ids => (uids fr, id_map fr, next_id fr)
  | ref_ids2 => (uids2 fr, id_map2 fr, next_id2 fr)
  end.

Definition ids_put (r : ids_ref) (v : list Z * id_map_t * Z) (fr : ids_frame)
  : ids_frame :=
  match r with
  | ref_ids =>
      {| uids := v.1.1; id_map := v.1.2; next_id := v.2;
         uids2 := uids2 fr; id_map2 := id_map2 fr; next_id2 := next_id2 fr |}
  | ref_ids2 =>
      {| uids := uids fr; id_map := id_map fr; next_id := next_id fr;
         uids2 := v.1.1; id_map2 := v.1.2; next_id2 := v.2 |}
  end.

Definition visit_get_unique_matrix_accesses (self : indexing_)
    (i : arg_index) (r : ids_ref) : M ids_frame unit :=
  λ fr,
    let '(u, m, n) := ids_get r fr in
    ((), ids_put r (get_unique_matrix_accesses (get_arg i self) u m n) fr,
     [call_get_unique_matrix_accesses i r (u, m, n)]).

(** [uids.push_back(x)] *)
Definition uids_push_back (x : Z) : M ids_frame unit :=
  modify (λ fr, ids_put ref_ids (uids fr ++ [x], id_map fr, next_id fr) fr).

(** [for (int i : l) body(i);] *)
Definition for_each {S A} (l : list A) (body : A -> M S unit) : M S unit :=
  foldr (λ a k, body a;; k) (mret ()) l.

Definition indexing_get_unique_matrix_accesses (self : indexing_)
  : M ids_frame unit :=
  modify (ids_put ref_ids2 ([], ∅, 0));;
  visit_get_unique_matrix_accesses self I0 ref_ids2;;
  l ← gets uids2;
  for_each l (λ i, n ← gets next_id; uids_push_back (i + n));;
  modify (λ fr, ids_put ref_ids
                  (uids fr, id_map fr, next_id fr + next_id2 fr) fr);;
  visit_get_unique_matrix_accesses self I1 ref_ids;;
  visit_get_unique_matrix_accesses self I2 ref_ids.

(** *** The member functions as functions of their arguments

    What a caller holding the object and the by-reference arguments
    observes: the returned value and the updated variables. *)
Definition enter {R} (self : indexing_) (generated : dedup_map) (rest : R)
  : frame R :=
  {| f_self := self; f_generated := generated; f_generated2 := ∅;
     f_rest := rest |}.

Definition leave {R X} (r : X * frame R * list call)
  : X * (indexing_ * dedup_map * R) :=
  (result_of r,
   (f_self (state_of r), f_generated (state_of r), f_rest (state_of r))).

Definition enter_ids (uids : list Z) (id_map : id_map_t) (next_id : Z)
  : ids_frame :=
  {| uids := uids; id_map := id_map; next_id := next_id;
     uids2 := []; id_map2 := ∅; next_id2 := 0 |}.

(** Modelled from the spec: [add_read_event] of the node, inherited from
    the base class [operation_cl], which is not among the sources.
    "Registers a completion event with every buffer the node
    (transitively) reads or writes": as a read event with every
    operand. *)
Definition indexing_add_read_event (e : cl_Event) : M indexing_ unit :=
  visit_add_read_event I0 e;;
  visit_add_read_event I1 e;;
  visit_add_read_event I2 e.

(** An [indexing_<...>] is itself an expression that can be indexed or
    used as an index. *)
#[global] Instance indexing_operation_cl : operation_cl indexing_ := {
  var_name_of := var_name_;
  rows := indexing_rows;
  cols := indexing_cols;
  deep_copy := indexing_deep_copy;
  get_kernel_parts this self generated name_gen
      row_index_name col_index_name view_handled :=
    leave (indexing_get_kernel_parts this row_index_name col_index_name
             view_handled (enter self generated name_gen));
  set_args this self generated kernel_arg_num :=
    leave (indexing_set_args this (enter self generated kernel_arg_num));
  add_read_event self e := state_of (indexing_add_read_event e self);
  get_unique_matrix_accesses self uids id_map next_id :=
    ids_get ref_ids
      (state_of (indexing_get_unique_matrix_accesses self
                   (enter_ids uids id_map next_id)));
}.

#[global] Instance indexing_operation_cl_lhs : operation_cl_lhs indexing_ := {
  get_kernel_parts_lhs this self generated name_gen
      row_index_name col_index_name :=
    leave (indexing_get_kernel_parts_lhs this row_index_name col_index_name
             (enter self generated name_gen));
  set_view self bottom_diagonal top_diagonal
      bottom_zero_diagonal top_zero_diagonal :=
    state_of (indexing_set_view bottom_diagonal top_diagonal
                bottom_zero_diagonal top_zero_diagonal self);
  add_write_event self e := state_of (indexing_add_write_event e self);
}.

End indexing.

Arguments indexing_ T_mat T_row_index T_col_index : clear implicits.
Arguments frame T_mat T_row_index T_col_index R : clear implicits.
Arguments f_self {T_mat T_row_index T_col_index R}.
Arguments f_generated {T_mat T_row_index T_col_index R}.
Arguments f_generated2 {T_mat T_row_index T_col_index R}.
Arguments f_rest {T_mat T_row_index T_col_index R}.

(** ** The factory [indexing(mat, row_index, col_index)] *)

(** [as_operation_cl] and [as_operation_cl_t] (declared in
    [as_operation_cl.hpp], not among the sources): what turns an argument
    of the factory into an operation. *)
Class kernel_expression (T : Type) := {
  as_operation_cl_t : Type;
  as_operation_cl : T -> as_operation_cl_t;
}.
Arguments as_operation_cl_t T {_}.

Section factory.
Context `{kernel_generator}.
Context {T_mat T_row_index T_col_index : Type}.
Context `{!kernel_expression T_mat, !kernel_expression T_row_index,
          !kernel_expression T_col_index}.
Context `{!operation_cl_lhs (as_operation_cl_t T_mat),
          !operation_cl (as_operation_cl_t T_row_index),
          !operation_cl (as_operation_cl_t T_col_index)}.

Definition indexing (mat : T_mat) (row_index : T_row_index)
    (col_index : T_col_index)
  : result (indexing_ (as_operation_cl_t T_mat)
              (as_operation_cl_t T_row_index)
              (as_operation_cl_t T_col_index)) :=
  mat_operation ← deep_copy (as_operation_cl mat);
  indexing_new mat_operation (as_operation_cl row_index)
    (as_operation_cl col_index).

End factory.

(** ** Collaborators of the end-to-end scenarios

    The leaf of an expression tree, the name generator, the kernel source
    and its execution belong to headers that are not among the sources.
    They are modelled here from the specification, as far as the scenarios
    need them. *)

(** Modelled from the spec: the kernel dialect, which the specification
    leaves to the backend ("textual, assembled by string concatenation of
    fragments").  A statement either declares a work-item variable [var]
    holding the element of the buffer parameter [var] at the position held
    by two index variables (a value expression), or declares [var] as a
    reference to that element (an assignable reference expression). *)
Inductive stmt :=
| stmt_load (var row_index_name col_index_name : string)
| stmt_ref (var row_index_name col_index_name : string).

(** Modelled from the spec: a code fragment, "declarations section, body
    section"; fragments are combined by concatenation, section by
    section. *)
Record fragment := {
  args : list string;
  body : list stmt;
}.

(** Modelled from the spec: the empty fragment and the concatenation of
    two fragments. *)
Definition fragment_empty : fragment := {| args := []; body := [] |}.

Definition fragment_plus (a b : fragment) : fragment :=
  {| args := args a ++ args b; body := body a ++ body b |}.

(** Modelled from the spec: a device buffer holding a matrix (the device
    backend's [matrix_cl]): its address, its elements row by row, the
    diagonal range of its view ("a pair (bottom_diagonal, top_diagonal) of
    integers, using sentinel minimum/maximum values to mean no
    restriction") and the events attached to it. *)
Record matrix_cl := {
  buffer : addr;
  elements : list (list Z);
  view : Z * Z;
  read_events : list N;
  write_events : list N;
}.

(** Modelled from the spec: the shape of a buffer. *)
Definition matrix_rows (m : matrix_cl) : Z := Z.of_nat (length (elements m)).

Definition matrix_cols (m : matrix_cl) : Z :=
  match elements m with
  | [] => 0
  | r :: _ => Z.of_nat (length r)
  end.

(** Modelled from the spec: element [(i, j)] of a buffer, when it
    exists. *)
Definition element (m : matrix_cl) (i j : Z) : option Z :=
  if decide (0 ≤ i ∧ 0 ≤ j) then
    r ← elements m !! Z.to_nat i;
    r !! Z.to_nat j
  else None.

(** Modelled from the spec: the device backend and the name generator.
    "Produces unique identifiers for kernel-local variables": a counter.
    "[kernel.set_arg(index, value)]": a kernel is its bound parameter
    slots.  The dynamic size is a negative sentinel. *)
#[global] Instance device : kernel_generator := {
  kernel_parts := fragment;
  kernel_parts_empty := fragment_empty;
  kernel_parts_plus := fragment_plus;
  name_generator := N;
  cl_Kernel := gmap Z matrix_cl;
  cl_Event := N;
  dynamic := -1;
}.

(** Modelled from the spec: the next unique identifier. *)
Definition generate (name_gen : N) : string * N :=
  let n := (name_gen + 1)%N in
  ("var" +:+ pretty n, n).

(** Modelled from the spec: the leaf of an expression tree, an operation
    that reads or writes a buffer ([load_], not among the sources).  It
    follows the capability contract of an operation node: code generation
    is "idempotent per dedup_map -- if the node's identity is already
    present in dedup_map, returns an empty fragment and reuses the
    previously assigned variable name"; argument binding "binds this
    node's runtime data ... starting at arg_cursor, advancing it by the
    number of arguments it binds", skipping "an operand already bound
    under the current dedup_map"; unique accesses are "one per
    physically-distinct underlying buffer touched". *)
Record load_ := {
  a_ : matrix_cl;
  load_var_name_ : string;
}.

(** Modelled from the spec: code generation of the leaf, a value
    expression. *)
Definition load_get_kernel_parts (this : addr) (self : load_)
    (generated : dedup_map) (name_gen : N)
    (row_index_name col_index_name : string) (view_handled : bool)
  : fragment * (load_ * dedup_map * N) :=
  match generated !! this with
  | None =>
      let '(v, name_gen) := generate name_gen in
      ({| args := [v];
          body := [stmt_load v row_index_name col_index_name] |},
       ({| a_ := a_ self; load_var_name_ := v |},
        <[this := ""]> generated, name_gen))
  | Some _ => (fragment_empty, (self, generated, name_gen))
  end.

(** Modelled from the spec: code generation of the leaf as the target of
    an assignment, "an assignable reference expression rather than a
    value expression". *)
Definition load_get_kernel_parts_lhs (this : addr) (self : load_)
    (generated : dedup_map) (name_gen : N)
    (row_index_name col_index_name : string)
  : fragment * (load_ * dedup_map * N) :=
  match generated !! this with
  | None =>
      let '(v, name_gen) := generate name_gen in
      ({| args := [v];
          body := [stmt_ref v row_index_name col_index_name] |},
       ({| a_ := a_ self; load_var_name_ := v |},
        <[this := ""]> generated, name_gen))
  | Some _ => (fragment_empty, (self, generated, name_gen))
  end.

(** Modelled from the spec: argument binding of the leaf: its buffer, in
    the next slot. *)
Definition load_set_args (this : addr) (self : load_)
    (generated : dedup_map) (kernel_arg_num : gmap Z matrix_cl * Z)
  : unit * (load_ * dedup_map * (gmap Z matrix_cl * Z)) :=
  let '(kernel, arg_num) := kernel_arg_num in
  match generated !! this with
  | None =>
      ((), (self, <[this := ""]> generated,
            (<[arg_num := a_ self]> kernel, arg_num + 1)))
  | Some _ => ((), (self, generated, (kernel, arg_num)))
  end.

(** Modelled from the spec: the identifier of the buffer the leaf
    touches, a new one when the map does not hold the buffer yet. *)
Definition load_get_unique_matrix_accesses (self : load_)
    (uids : list Z) (id_map : id_map_t) (next_id : Z)
  : list Z * id_map_t * Z :=
  match id_map !! buffer (a_ self) with
  | None =>
      (uids ++ [next_id], <[buffer (a_ self) := next_id]> id_map, next_id + 1)
  | Some id => (uids ++ [id], id_map, next_id)
  end.

(** Modelled from the spec: the leaf records the diagonal range on its
    buffer, and events with the buffer they concern. *)
Definition load_set_view (self : load_)
    (bottom_diagonal top_diagonal bottom_zero_diagonal top_zero_diagonal : Z)
  : load_ :=
  {| a_ := {| buffer := buffer (a_ self); elements := elements (a_ self);
              view := (bottom_diagonal, top_diagonal);
              read_events := read_events (a_ self);
              write_events := write_events (a_ self) |};
     load_var_name_ := load_var_name_ self |}.

Definition load_add_read_event (self : load_) (e : N) : load_ :=
  {| a_ := {| buffer := buffer (a_ self); elements := elements (a_ self);
              view := view (a_ self);
              read_events := read_events (a_ self) ++ [e];
              write_events := write_events (a_ self) |};
     load_var_name_ := load_var_name_ self |}.

Definition load_add_write_event (self : load_) (e : N) : load_ :=
  {| a_ := {| buffer := buffer (a_ self); elements := elements (a_ self);
              view := view (a_ self);
              read_events := read_events (a_ self);
              write_events := write_events (a_ self) ++ [e] |};
     load_var_name_ := load_var_name_ self |}.

(** Modelled from the spec: the leaf as an operation; its deep copy
    refers to the same buffer and has no variable name yet. *)
#[global] Instance load_operation_cl : operation_cl load_ := {
  var_name_of := load_var_name_;
  rows self := matrix_rows (a_ self);
  cols self := matrix_cols (a_ self);
  deep_copy self := mret {| a_ := a_ self; load_var_name_ := "" |};
  get_kernel_parts := load_get_kernel_parts;
  set_args := load_set_args;
  add_read_event := load_add_read_event;
  get_unique_matrix_accesses := load_get_unique_matrix_accesses;
}.

#[global] Instance load_operation_cl_lhs : operation_cl_lhs load_ := {
  get_kernel_parts_lhs := load_get_kernel_parts_lhs;
  set_view := load_set_view;
  add_write_event := load_add_write_event;
}.

(** Modelled from the spec: a buffer passed to the factory becomes a
    leaf; an operation passed to the factory is taken as it is. *)
Definition load_of (m : matrix_cl) : load_ :=
  {| a_ := m; load_var_name_ := "" |}.

#[global] Instance matrix_cl_kernel_expression : kernel_expression matrix_cl := {
  as_operation_cl_t := load_;
  as_operation_cl := load_of;
}.

(** Modelled from the spec: the addresses of the operands of a node, for
    the scenarios: three distinct places per node, none of them shared
    with another node. *)
#[global] Instance scenario_layout : layout := λ this i,
  match i with
  | I0 => 4 * this + 1
  | I1 => 4 * this + 2
  | I2 => 4 * this + 3
  end%N.

(** Modelled from the spec: an index that is broadcast along the rows, so
    that its one row serves every row of its sibling ("supports
    broadcasting a degenerate 1-row ... index against the other").  Its
    number of rows is "dynamic, resolved from operands at tree-build
    time"; its code is the code of its argument read at row 0, and it has
    no variable of its own. *)
Record rowwise_broadcast_ (T : Type) := {
  broadcast_arg : T;
}.
Arguments broadcast_arg {T}.

Section rowwise_broadcast.
Context `{layout} {T : Type} `{!operation_cl T}.

#[global] Instance rowwise_broadcast_operation_cl
  : operation_cl (rowwise_broadcast_ T) := {
  var_name_of b := var_name_of (broadcast_arg b);
  rows b := dynamic;
  cols b := cols (broadcast_arg b);
  deep_copy b :=
    a ← deep_copy (broadcast_arg b); mret {| broadcast_arg := a |};
  get_kernel_parts this b generated name_gen
      row_index_name col_index_name view_handled :=
    let '(p, (a, generated, name_gen)) :=
      get_kernel_parts (arg_addr this I0) (broadcast_arg b) generated
        name_gen "0" col_index_name view_handled in
    (p, ({| broadcast_arg := a |}, generated, name_gen));
  set_args this b generated kernel_arg_num :=
    let '(u, (a, generated, kernel_arg_num)) :=
      set_args (arg_addr this I0) (broadcast_arg b) generated
        kernel_arg_num in
    (u, ({| broadcast_arg := a |}, generated, kernel_arg_num));
  add_read_event b e := {| broadcast_arg := add_read_event (broadcast_arg b) e |};
  get_unique_matrix_accesses b :=
    get_unique_matrix_accesses (broadcast_arg b);
}.

End rowwise_broadcast.

#[global] Instance rowwise_broadcast_kernel_expression {T}
  : kernel_expression (rowwise_broadcast_ T) := {
  as_operation_cl_t := rowwise_broadcast_ T;
  as_operation_cl b := b;
}.

(** Modelled from the spec: one work-item of the compiled kernel.  The
    parameters are the declared arguments, bound slot by slot in the
    order of their declaration; an index name is a work-item variable or
    the literal 0; a statement that reads outside a buffer or names an
    unknown variable fails. *)
Definition parameters (declared : list string) (kernel : gmap Z matrix_cl)
  : gmap string matrix_cl :=
  list_to_map
    (omap (λ '(k, p), m ← kernel !! Z.of_nat k; Some (p, m))
          (imap pair declared)).

(** Modelled from the spec: the value of an index name. *)
Definition index_value (env : gmap string Z) (name : string) : option Z :=
  if decide (name = "0") then Some 0 else env !! name.

(** Modelled from the spec: one statement, and a sequence of
    statements. *)
Definition exec (params : gmap string matrix_cl) (s : stmt)
    (env : gmap string Z) : option (gmap string Z) :=
  match s with
  | stmt_load v r c =>
      m ← params !! v;
      i ← index_value env r;
      j ← index_value env c;
      x ← element m i j;
      Some (<[v := x]> env)
  | stmt_ref v r c => Some env
  end.

Definition run (params : gmap string matrix_cl) (code : list stmt)
    (env : gmap string Z) : option (gmap string Z) :=
  foldl (λ st s, env ← st; exec params s env) (Some env) code.

(** Modelled from the spec: evaluation of an expression at one output
    position.  "The Kernel Assembler walks the tree once ..., then the
    Kernel Argument Binder walks the tree again in the same order to bind
    arguments"; the work-item for position [(i, j)] then runs the body
    with the loop variables set to [i] and [j], and the value of the
    expression is the value of its variable. *)
Definition evaluate {T} `{!operation_cl T} (this : addr) (expr : T)
    (i j : Z) : option Z :=
  let '(parts, (expr, _, _)) :=
    get_kernel_parts this expr ∅ 0%N "i" "j" false in
  let '(_, (expr, _, (kernel, _))) := set_args this expr ∅ (∅, 0) in
  env ← run (parameters (args parts) kernel) (body parts)
            {[ "i"%string := i; "j"%string := j ]};
  env !! var_name_of expr.

(** The buffers of scenario 1: a 3x3 matrix and two 2x2 index matrices,
    with no restriction of view and no event yet. *)
Definition matrix_at (b : addr) (e : list (list Z)) : matrix_cl :=
  {| buffer := b; elements := e; view := (int_min, int_max);
     read_events := []; write_events := [] |}.

Definition scenario_row_index : matrix_cl := matrix_at 200%N [[0; 1]; [2; 0]].
Definition scenario_col_index : matrix_cl := matrix_at 300%N [[0; 0]; [1; 2]].

Definition scenario_mat (m00 m01 m02 m10 m11 m12 m20 m21 m22 : Z) : matrix_cl :=
  matrix_at 100%N [[m00; m01; m02]; [m10; m11; m12]; [m20; m21; m22]].

(** A one-row index, to be broadcast against [scenario_col_index]. *)
Definition scenario_row_vector : matrix_cl := matrix_at 400%N [[2; 1]].

(** The node of scenario 1 as the factory builds it. *)
Definition scenario_node (m00 m01 m02 m10 m11 m12 m20 m21 m22 : Z)
  : indexing_ load_ load_ load_ :=
  {| mat_ := load_of (scenario_mat m00 m01 m02 m10 m11 m12 m20 m21 m22);
     row_index_ := load_of scenario_row_index;
     col_index_ := load_of scenario_col_index;
     var_name_ := ""; generated_ := ∅ |}.

Definition example_mat : matrix_cl := scenario_mat 10 11 12 20 21 22 30 31 32.
Definition example_node : indexing_ load_ load_ load_ :=
  scenario_node 10 11 12 20 21 22 30 31 32.

(** Index matrices whose shapes disagree with [scenario_row_index]: one
    more row, one more column. *)
Definition tall_col_index : matrix_cl := matrix_at 500%N [[0; 0]; [1; 2]; [0; 1]].
Definition wide_col_index : matrix_cl := matrix_at 600%N [[0; 0; 1]; [1; 2; 0]].
(** ** Notions used to state the properties *)

Section contracts.
Context `{kernel_generator}.

(** Code generation of an operand is idempotent per map: "if the node's
    identity is already present in dedup_map, returns an empty fragment
    and reuses the previously assigned variable name"; a call leaves the
    operand in the map, and removes nothing from it. *)
Class dedup_codegen (T : Type) `{!operation_cl T} : Prop := {
  gkp_skip this (t : T) g name_gen rn cn vh :
    is_Some (g !! this) →
    get_kernel_parts this t g name_gen rn cn vh
    = (kernel_parts_empty, (t, g, name_gen));
  gkp_records this (t : T) g name_gen rn cn vh :
    is_Some ((get_kernel_parts this t g name_gen rn cn vh).2.1.2 !! this);
  gkp_keeps this (t : T) g name_gen rn cn vh k :
    is_Some (g !! k) →
    is_Some ((get_kernel_parts this t g name_gen rn cn vh).2.1.2 !! k);
}.


(** The identifiers an operand reports are appended to the ones it is
    handed; each is one the map held before or one counted since, the
    counter only grows, and so does the map, by identifiers counted
    since. *)
Class unique_ids (T : Type) `{!operation_cl T} : Prop := {
  ids_append (t : T) us im n :
    ∃ new, (get_unique_matrix_accesses t us im n).1.1 = us ++ new
           ∧ Forall (λ x, (∃ k, im !! k = Some x)
                          ∨ n ≤ x < (get_unique_matrix_accesses t us im n).2)
                    new;
  ids_counter (t : T) us im n :
    n ≤ (get_unique_matrix_accesses t us im n).2;
  ids_map (t : T) us im n k x :
    (get_unique_matrix_accesses t us im n).1.2 !! k = Some x →
    im !! k = Some x
    ∨ n ≤ x < (get_unique_matrix_accesses t us im n).2;
}.

End contracts.

Section statements.
Context `{kernel_generator} `{layout}.
Context {T_mat T_row_index T_col_index : Type}.
Context `{!operation_cl_lhs T_mat, !operation_cl T_row_index,
          !operation_cl T_col_index}.
Implicit Types (mat : T_mat) (row_index : T_row_index)
  (col_index : T_col_index) (self : indexing_ T_mat T_row_index T_col_index).

(** The object the constructor leaves behind when nothing is thrown. *)
Definition constructed mat row_index col_index
  : indexing_ T_mat T_row_index T_col_index :=
  {| mat_ := mat; row_index_ := row_index; col_index_ := col_index;
     var_name_ := ""; generated_ := ∅ |}.

(** The check of one axis, taken alone. *)
Definition rows_check row_index col_index : result unit :=
  if bool_decide (rows col_index ≠ dynamic)
     && bool_decide (rows row_index ≠ dynamic)
  then check_size_match "indexing" "Rows of " "col_index" (rows col_index)
                        "rows of " "row_index" (rows row_index)
  else mret ().

Definition cols_check row_index col_index : result unit :=
  if bool_decide (cols col_index ≠ dynamic)
     && bool_decide (cols row_index ≠ dynamic)
  then check_size_match "indexing" "Columns of " "col_index" (cols col_index)
                        "columns of " "row_index" (cols row_index)
  else mret ().

Local Abbreviation frame := (frame T_mat T_row_index T_col_index).

(** What the guarded prologue of [get_kernel_parts_lhs] leaves in the two
    maps. *)
Definition lhs_generated (this : addr) (fr : frame name_generator)
  : dedup_map :=
  match f_generated fr !! this with
  | None => <[this := ""]> (f_generated fr)
  | Some _ => f_generated fr
  end.

Definition lhs_generated_ (this : addr) (fr : frame name_generator)
  : dedup_map :=
  match f_generated fr !! this with
  | None => ∅
  | Some _ => generated_ (f_self fr)
  end.

End statements.

(** ** Further notions *)

Section more_contracts.
Context `{kernel_generator}.

(** Argument binding of an operand removes nothing from the map it is
    handed. *)
Class keeps_set_args (T : Type) `{!operation_cl T} : Prop :=
  args_keeps this (t : T) g kernel_arg_num k :
    is_Some (g !! k) →
    is_Some ((set_args this t g kernel_arg_num).2.1.2 !! k).

(** The [view_handled] argument of a call, for the calls that take one. *)
Definition call_view_handled (c : call) : option bool :=
  match c with
  | call_get_kernel_parts _ _ _ _ _ view_handled => Some view_handled
  | _ => None
  end.

End more_contracts.

Section more_statements.
Context {T_mat T_row_index T_col_index : Type}.

(** The frame [fr] with another matrix operand in the node and another
    content of the node's private map. *)
Definition with_mat {R} (mat : T_mat) (g : dedup_map)
    (fr : frame T_mat T_row_index T_col_index R)
  : frame T_mat T_row_index T_col_index R :=
  self_put (put_generated_ g (put_arg I0 mat (f_self fr))) fr.

(** The frame [fr] with another variable name and another private map in
    the node. *)
Definition with_members {R} (v : string) (g : dedup_map)
    (fr : frame T_mat T_row_index T_col_index R)
  : frame T_mat T_row_index T_col_index R :=
  self_put (put_var_name_ v (put_generated_ g (f_self fr))) fr.

End more_statements.

(** Modelled from the spec: a node passed to the factory is an operation
    already and is taken as it is. *)
#[global] Instance indexing_kernel_expression {M R C}
  : kernel_expression (indexing_ M R C) := {
  as_operation_cl_t := indexing_ M R C;
  as_operation_cl node := node;
}.

(** * Properties of the node *)

Section indexing_facts.
Context `{kernel_generator} `{layout}.
Context {T_mat T_row_index T_col_index : Type}.
Context `{!operation_cl_lhs T_mat, !operation_cl T_row_index,
          !operation_cl T_col_index}.
Implicit Types (mat : T_mat) (row_index : T_row_index)
  (col_index : T_col_index) (self : indexing_ T_mat T_row_index T_col_index).
Local Abbreviation frame := (frame T_mat T_row_index T_col_index).

(** ** Construction *)

Lemma indexing_new_checks mat row_index col_index :
  indexing_new mat row_index col_index =
  (rows_check row_index col_index;; cols_check row_index col_index;;
   mret (constructed mat row_index col_index)).
Proof. reflexivity. Qed.

Lemma rows_check_dynamic row_index col_index :
  rows col_index = dynamic ∨ rows row_index = dynamic →
  rows_check row_index col_index = mret ().
Proof.
  intros Hd. unfold rows_check.
  destruct Hd as [Hd|Hd]; rewrite Hd;
    repeat case_bool_decide; simpl; congruence.
Qed.

Lemma cols_check_dynamic row_index col_index :
  cols col_index = dynamic ∨ cols row_index = dynamic →
  cols_check row_index col_index = mret ().
Proof.
  intros Hd. unfold cols_check.
  destruct Hd as [Hd|Hd]; rewrite Hd;
    repeat case_bool_decide; simpl; congruence.
Qed.

Lemma rows_check_mismatch row_index col_index :
  rows col_index ≠ dynamic → rows row_index ≠ dynamic →
  rows col_index ≠ rows row_index →
  rows_check row_index col_index =
  mthrow (invalid_argument "indexing" "Rows of " "col_index" (rows col_index)
            "rows of " "row_index" (rows row_index)).
Proof.
  intros Hc Hr Hne. unfold rows_check, check_size_match.
  rewrite !bool_decide_eq_true_2 by done. simpl.
  by rewrite decide_False.
Qed.

Lemma cols_check_mismatch row_index col_index :
  cols col_index ≠ dynamic → cols row_index ≠ dynamic →
  cols col_index ≠ cols row_index →
  cols_check row_index col_index =
  mthrow (invalid_argument "indexing" "Columns of " "col_index"
            (cols col_index) "columns of " "row_index" (cols row_index)).
Proof.
  intros Hc Hr Hne. unfold cols_check, check_size_match.
  rewrite !bool_decide_eq_true_2 by done. simpl.
  by rewrite decide_False.
Qed.

Lemma rows_check_cases row_index col_index :
  rows_check row_index col_index = mret () ∨
  ∃ e : exception, rows_check row_index col_index = mthrow e.
Proof.
  unfold rows_check, check_size_match.
  destruct (_ && _); [|by left]. case_decide; [by left|right; eauto].
Qed.

Lemma indexing_new_inv mat row_index col_index self :
  indexing_new mat row_index col_index = mret self →
  self = constructed mat row_index col_index
  ∧ rows_check row_index col_index = mret ()
  ∧ cols_check row_index col_index = mret ().
Proof.
  rewrite indexing_new_checks.
  destruct (rows_check row_index col_index) as [e|[]]; [done|].
  destruct (cols_check row_index col_index) as [e|[]]; [done|].
  by intros [= <-].
Qed.

(** C2.  Construction checks the two index operands against each other,
    axis by axis.  When both report a concrete number of rows and the
    numbers differ, the constructor throws the invalid-dimension error of
    the rows check; when both report a concrete number of columns and the
    numbers differ, the constructor throws (the error of the columns
    check, unless the rows check has thrown before it); on an axis where
    one of the two reports [dynamic] the check of that axis does not take
    part in the outcome.  The error is the outcome of the constructor
    itself: no object is returned. *)
Theorem indexing_new_shape_mismatch mat row_index col_index :
  (rows col_index ≠ dynamic → rows row_index ≠ dynamic →
   rows col_index ≠ rows row_index →
   indexing_new mat row_index col_index =
   mthrow (invalid_argument "indexing" "Rows of " "col_index"
             (rows col_index) "rows of " "row_index" (rows row_index)))
  ∧ (cols col_index ≠ dynamic → cols row_index ≠ dynamic →
     cols col_index ≠ cols row_index →
     is_ok (indexing_new mat row_index col_index) = false
     ∧ (rows_check row_index col_index = mret () →
        indexing_new mat row_index col_index =
        mthrow (invalid_argument "indexing" "Columns of " "col_index"
                  (cols col_index) "columns of " "row_index"
                  (cols row_index))))
  ∧ (rows col_index = dynamic ∨ rows row_index = dynamic →
     indexing_new mat row_index col_index =
     (cols_check row_index col_index;;
      mret (constructed mat row_index col_index)))
  ∧ (cols col_index = dynamic ∨ cols row_index = dynamic →
     indexing_new mat row_index col_index =
     (rows_check row_index col_index;;
      mret (constructed mat row_index col_index)))
  ∧ (rows col_index = dynamic ∨ rows row_index = dynamic →
     cols col_index = dynamic ∨ cols row_index = dynamic →
     indexing_new mat row_index col_index =
     mret (constructed mat row_index col_index)).
Proof.
  rewrite indexing_new_checks. repeat split.
  - intros. by rewrite rows_check_mismatch.
  - rewrite cols_check_mismatch by done.
    by destruct (rows_check_cases row_index col_index) as [->| [e ->]].
  - intros ->. by rewrite cols_check_mismatch.
  - intros Hd. by rewrite rows_check_dynamic.
  - intros Hd. rewrite cols_check_dynamic by done.
    by destruct (rows_check_cases row_index col_index) as [->| [e ->]].
  - intros Hr Hc. by rewrite rows_check_dynamic, cols_check_dynamic.
Qed.

(** ** Shape *)

(** C6.  The number of rows of the node is the larger of the numbers of
    rows of its two index operands, and likewise for columns.  This holds
    of every object the constructor returns, whose operands are the ones
    it was given: on each axis either the two indices report the same
    number, which is then the number the node reports, or one of them
    reports [dynamic] (an index broadcast along that axis). *)
Theorem indexing_rows_cols_max mat row_index col_index self :
  indexing_new mat row_index col_index = mret self →
  indexing_rows self = Z.max (rows row_index) (rows col_index)
  ∧ indexing_cols self = Z.max (cols row_index) (cols col_index)
  ∧ get_arg I1 self = row_index ∧ get_arg I2 self = col_index
  ∧ (rows row_index = dynamic ∨ rows col_index = dynamic
     ∨ rows row_index = rows col_index ∧ indexing_rows self = rows row_index)
  ∧ (cols row_index = dynamic ∨ cols col_index = dynamic
     ∨ cols row_index = cols col_index ∧ indexing_cols self = cols row_index).
Proof.
  intros Hnew.
  destruct (indexing_new_inv _ _ _ _ Hnew) as (-> & Hrows & Hcols).
  do 4 (split; [done|]).
  unfold indexing_rows, indexing_cols. simpl.
  unfold rows_check, cols_check, check_size_match in *.
  split.
  - destruct (decide (rows row_index = dynamic)); [by left|].
    destruct (decide (rows col_index = dynamic)); [by right; left|].
    rewrite !bool_decide_eq_true_2 in Hrows by done. simpl in Hrows.
    destruct (decide (rows col_index = rows row_index)) as [Heq|Hne];
      [|by inversion Hrows].
    right; right. split; [congruence|lia].
  - destruct (decide (cols row_index = dynamic)); [by left|].
    destruct (decide (cols col_index = dynamic)); [by right; left|].
    rewrite !bool_decide_eq_true_2 in Hcols by done. simpl in Hcols.
    destruct (decide (cols col_index = cols row_index)) as [Heq|Hne];
      [|by inversion Hcols].
    right; right. split; [congruence|lia].
Qed.

(** ** Views and events *)

(** C5.  Whatever the four diagonals handed to [set_view] are, the node
    makes one call, [set_view] on the indexed matrix, with the smallest
    [int] for both bottom diagonals and the largest for both top
    diagonals; the matrix operand is left as that call leaves it. *)
Theorem indexing_set_view_entire self
    (bottom_diagonal top_diagonal bottom_zero_diagonal top_zero_diagonal : Z) :
  let r := indexing_set_view bottom_diagonal top_diagonal
             bottom_zero_diagonal top_zero_diagonal self in
  calls_of r = [call_set_view I0 int_min int_max int_min int_max]
  ∧ mat_ (state_of r) = set_view (mat_ self) int_min int_max int_min int_max.
Proof. done. Qed.

(** C10.  [set_view] of the node calls no member function of the row
    index or of the column index, and leaves both as they were, together
    with the node's own members. *)
Theorem indexing_set_view_frame self
    (bottom_diagonal top_diagonal bottom_zero_diagonal top_zero_diagonal : Z) :
  let r := indexing_set_view bottom_diagonal top_diagonal
             bottom_zero_diagonal top_zero_diagonal self in
  Forall (λ c, callee c = I0) (calls_of r)
  ∧ row_index_ (state_of r) = row_index_ self
  ∧ col_index_ (state_of r) = col_index_ self
  ∧ var_name_ (state_of r) = var_name_ self
  ∧ generated_ (state_of r) = generated_ self.
Proof. repeat split. by repeat constructor. Qed.

(** C9.  [add_write_event] of the node makes three calls: [add_read_event]
    on the row index, [add_read_event] on the column index and
    [add_write_event] on the indexed matrix, each with the event it was
    given.  No [add_write_event] is called on an index operand, and each
    operand is left as its one call leaves it. *)
Theorem indexing_add_write_event_calls self (e : cl_Event) :
  let r := indexing_add_write_event e self in
  calls_of r = [call_add_read_event I1 e; call_add_read_event I2 e;
                call_add_write_event I0 e]
  ∧ omap write_event_callee (calls_of r) = [I0]
  ∧ row_index_ (state_of r) = add_read_event (row_index_ self) e
  ∧ col_index_ (state_of r) = add_read_event (col_index_ self) e
  ∧ mat_ (state_of r) = add_write_event (mat_ self) e.
Proof.
  done.
Qed.

(** ** Code generation and argument binding, step by step *)

Lemma get_kernel_parts_first this rn cn vh (fr : frame name_generator) :
  f_generated fr !! this = None →
  indexing_get_kernel_parts this rn cn vh fr = 
  let '(p1, (r, g1, n1)) :=
    get_kernel_parts (arg_addr this I1) (row_index_ (f_self fr))
      (<[this := ""]> (f_generated fr)) (f_rest fr) rn cn vh in
  let '(p2, (c, g2, n2)) :=
    get_kernel_parts (arg_addr this I2) (col_index_ (f_self fr)) g1 n1 rn cn vh in
  let '(p3, (m, g3, n3)) :=
    get_kernel_parts (arg_addr this I0) (mat_ (f_self fr)) ∅ n2
      (var_name_of r) (var_name_of c) false in
  (p1 +k p2 +k p3,
   {| f_self := {| mat_ := m; row_index_ := r; col_index_ := c;
                   var_name_ := var_name_of m; generated_ := g3 |};
      f_generated := g2; f_generated2 := f_generated2 fr; f_rest := n3 |},
   [call_get_kernel_parts I1 ref_generated (<[this := ""]> (f_generated fr))
      rn cn vh;
    call_get_kernel_parts I2 ref_generated g1 rn cn vh;
    call_get_kernel_parts I0 ref_generated_ ∅ (var_name_of r) (var_name_of c)
      false]).
Proof.
  intros Hnone. destruct fr as [self g g2' ng]. simpl in *.
  unfold indexing_get_kernel_parts, count, gets, mbind, M_bind. simpl.
  rewrite Hnone. simpl.
  unfold visit_get_kernel_parts, visit. simpl.
  destruct (get_kernel_parts _ (row_index_ self) _ _ _ _ _)
    as [p1 [[r g1] n1]]. simpl.
  destruct (get_kernel_parts _ (col_index_ self) _ _ _ _ _)
    as [p2 [[c g2] n2]]. simpl.
  destruct (get_kernel_parts _ (mat_ self) _ _ _ _ _)
    as [p3 [[m g3] n3]]. simpl.
  done.
Qed.

Lemma get_kernel_parts_again this rn cn vh (fr : frame name_generator) :
  is_Some (f_generated fr !! this) →
  indexing_get_kernel_parts this rn cn vh fr = (kernel_parts_empty, fr, []).
Proof.
  intros [v Hsome].
  unfold indexing_get_kernel_parts, count, gets, mbind, M_bind. simpl.
  by rewrite Hsome.
Qed.

Lemma get_kernel_parts_lhs_run this rn cn (fr : frame name_generator) :
  indexing_get_kernel_parts_lhs this rn cn fr =
  let '(p1, (r, g1, n1)) :=
    get_kernel_parts (arg_addr this I1) (row_index_ (f_self fr))
      (lhs_generated this fr) (f_rest fr) rn cn false in
  let '(p2, (c, g2, n2)) :=
    get_kernel_parts (arg_addr this I2) (col_index_ (f_self fr)) g1 n1 rn cn false in
  let '(p3, (m, g3, n3)) :=
    get_kernel_parts_lhs (arg_addr this I0) (mat_ (f_self fr))
      (lhs_generated_ this fr) n2 (var_name_of r) (var_name_of c) in
  (p1 +k p2 +k p3,
   {| f_self := {| mat_ := m; row_index_ := r; col_index_ := c;
                   var_name_ := var_name_of m; generated_ := g3 |};
      f_generated := g2; f_generated2 := f_generated2 fr; f_rest := n3 |},
   [call_get_kernel_parts I1 ref_generated (lhs_generated this fr)
      rn cn false;
    call_get_kernel_parts I2 ref_generated g1 rn cn false;
    call_get_kernel_parts_lhs I0 ref_generated_ (lhs_generated_ this fr)
      (var_name_of r) (var_name_of c)]).
Proof.
  destruct fr as [self g g2' ng].
  unfold indexing_get_kernel_parts_lhs, lhs_generated, lhs_generated_,
    count, gets, mbind, M_bind. simpl.
  destruct (g !! this) as [v|]; simpl;
    unfold visit_get_kernel_parts, visit_get_kernel_parts_lhs, visit; simpl.
  all: destruct (get_kernel_parts _ (row_index_ self) _ _ _ _ _)
    as [p1 [[r g1] n1]]; simpl.
  all: destruct (get_kernel_parts _ (col_index_ self) _ _ _ _ _)
    as [p2 [[c g2] n2]]; simpl.
  all: destruct (get_kernel_parts_lhs _ (mat_ self) _ _ _ _)
    as [p3 [[m g3] n3]]; simpl.
  all: by destruct self.
Qed.

Lemma set_args_first this (fr : frame (cl_Kernel * Z)) :
  f_generated fr !! this = None →
  indexing_set_args this fr =
  let '(_, (r, g1, k1)) :=
    set_args (arg_addr this I1) (row_index_ (f_self fr))
      (<[this := ""]> (f_generated fr)) (f_rest fr) in
  let '(_, (c, g2, k2)) :=
    set_args (arg_addr this I2) (col_index_ (f_self fr)) g1 k1 in
  let '(_, (m, g3, k3)) :=
    set_args (arg_addr this I0) (mat_ (f_self fr)) ∅ k2 in
  ((),
   {| f_self := {| mat_ := m; row_index_ := r; col_index_ := c;
                   var_name_ := var_name_ (f_self fr);
                   generated_ := generated_ (f_self fr) |};
      f_generated := g2; f_generated2 := g3; f_rest := k3 |},
   [call_set_args I1 ref_generated (<[this := ""]> (f_generated fr));
    call_set_args I2 ref_generated g1;
    call_set_args I0 ref_generated2 ∅]).
Proof.
  intros Hnone. destruct fr as [self g g2' kn]. simpl in *.
  unfold indexing_set_args, count, gets, mbind, M_bind. simpl.
  rewrite Hnone. simpl.
  unfold visit_set_args, visit. simpl.
  destruct (set_args _ (row_index_ self) _ _) as [[] [[r g1] k1]]. simpl.
  destruct (set_args _ (col_index_ self) _ _) as [[] [[c g2] k2]]. simpl.
  destruct (set_args _ (mat_ self) _ _) as [[] [[m g3] k3]]. simpl.
  done.
Qed.

Lemma set_args_again this (fr : frame (cl_Kernel * Z)) :
  is_Some (f_generated fr !! this) →
  indexing_set_args this fr = ((), fr, []).
Proof.
  intros [v Hsome].
  unfold indexing_set_args, count, gets, mbind, M_bind. simpl.
  by rewrite Hsome.
Qed.

(** ** The node as an operand *)

Lemma get_kernel_parts_keeps this rn cn vh (fr : frame name_generator) k
    `{!dedup_codegen T_row_index, !dedup_codegen T_col_index} :
  is_Some (f_generated fr !! k) ∨ k = this →
  is_Some (f_generated
             (state_of (indexing_get_kernel_parts this rn cn vh fr)) !! k).
Proof.
  intros Hk. destruct (f_generated fr !! this) as [v|] eqn:Hg.
  { rewrite get_kernel_parts_again by eauto. simpl.
    destruct Hk as [Hk| ->]; [done|eauto]. }
  rewrite get_kernel_parts_first by done.
  pose proof (gkp_keeps (T:=T_row_index) (arg_addr this I1)
                (row_index_ (f_self fr)) (<[this := ""]> (f_generated fr))
                (f_rest fr) rn cn vh k) as Hk1.
  destruct (get_kernel_parts _ (row_index_ _) _ _ _ _ _)
    as [p1 [[r g1] n1]]. simpl in Hk1.
  pose proof (gkp_keeps (T:=T_col_index) (arg_addr this I2)
                (col_index_ (f_self fr)) g1 n1 rn cn vh k) as Hk2.
  destruct (get_kernel_parts _ (col_index_ _) _ _ _ _ _)
    as [p2 [[c g2] n2]]. simpl in Hk2.
  destruct (get_kernel_parts _ (mat_ _) _ _ _ _ _) as [p3 [[m g3] n3]].
  simpl. apply Hk2, Hk1. destruct Hk as [Hk| ->].
  - destruct (decide (this = k)) as [->|Hne].
    + rewrite lookup_insert_eq. eauto.
    + by rewrite lookup_insert_ne.
  - rewrite lookup_insert_eq. eauto.
Qed.

(** A node whose index operands generate code idempotently does so
    itself. *)
#[global] Instance indexing_dedup_codegen
    `{!dedup_codegen T_row_index, !dedup_codegen T_col_index} :
  dedup_codegen (indexing_ T_mat T_row_index T_col_index).
Proof.
  split.
  - intros this self g ng rn cn vh Hg. simpl.
    by rewrite get_kernel_parts_again.
  - intros this self g ng rn cn vh.
    apply (get_kernel_parts_keeps this rn cn vh (enter self g ng) this).
    by right.
  - intros this self g ng rn cn vh k Hk.
    apply (get_kernel_parts_keeps this rn cn vh (enter self g ng) k).
    by left.
Qed.

(** ** Order of the operand visits *)


(** ** Repeated code generation *)


(** ** Unique matrix accesses *)

Lemma for_each_push_back (l : list Z) (fr : ids_frame) :
  for_each l (λ i, n ← gets next_id; uids_push_back (i + n)) fr
  = ((), ids_put ref_ids
           (uids fr ++ map (λ i, i + next_id fr) l, id_map fr, next_id fr) fr,
     []).
Proof.
  revert fr. induction l as [|i l IH]; intros fr.
  - simpl. unfold mret, M_ret. rewrite app_nil_r. by destruct fr.
  - simpl. unfold mbind, M_bind, gets, uids_push_back, modify in *. simpl.
    rewrite IH. simpl. by rewrite <- app_assoc.
Qed.

Lemma get_unique_matrix_accesses_run self (fr : ids_frame) :
  indexing_get_unique_matrix_accesses self fr =
  let a0 := get_unique_matrix_accesses (mat_ self) [] ∅ 0 in
  let h1 := (uids fr ++ map (λ i, i + next_id fr) a0.1.1, id_map fr,
             next_id fr + a0.2) in
  let a1 := get_unique_matrix_accesses (row_index_ self)
              h1.1.1 h1.1.2 h1.2 in
  let a2 := get_unique_matrix_accesses (col_index_ self)
              a1.1.1 a1.1.2 a1.2 in
  ((),
   {| uids := a2.1.1; id_map := a2.1.2; next_id := a2.2;
      uids2 := a0.1.1; id_map2 := a0.1.2; next_id2 := a0.2 |},
   [call_get_unique_matrix_accesses I0 ref_ids2 ([], ∅, 0);
    call_get_unique_matrix_accesses I1 ref_ids h1;
    call_get_unique_matrix_accesses I2 ref_ids a1]).
Proof.
  unfold indexing_get_unique_matrix_accesses.
  unfold mbind at 1 2 3 4 5. unfold M_bind. unfold modify at 1. simpl.
  destruct (get_unique_matrix_accesses (mat_ self) [] ∅ 0)
    as [[u0 m0] n0] eqn:E0. simpl.
  rewrite for_each_push_back. simpl.
  unfold mbind, M_bind, visit_get_unique_matrix_accesses. simpl.
  destruct (get_unique_matrix_accesses (row_index_ self) _ _ _)
    as [[u1 m1] n1] eqn:E1. simpl.
  destruct (get_unique_matrix_accesses (col_index_ self) _ _ _)
    as [[u2 m2] n2] eqn:E2. simpl.
  done.
Qed.

(** The identifiers the indexed matrix reports when it starts from an
    empty map and from zero lie below the counter it ends with. *)
Lemma ids_from_zero `{!unique_ids T_mat} mat :
  let a0 := get_unique_matrix_accesses mat [] ∅ 0 in
  0 ≤ a0.2 ∧ Forall (λ x, 0 ≤ x < a0.2) a0.1.1.
Proof.
  intros a0. split; [apply ids_counter|].
  destruct (ids_append mat [] ∅ 0) as (new & Hnew & Hall).
  fold a0 in Hnew, Hall. rewrite Hnew. simpl.
  eapply Forall_impl; [exact Hall|]. simpl.
  intros x [[k Hk]|Hx]; [by rewrite lookup_empty in Hk|done].
Qed.


(** A node whose operands number their accesses from what they are handed
    does so itself. *)
#[global] Instance indexing_unique_ids
    `{!unique_ids T_mat, !unique_ids T_row_index, !unique_ids T_col_index} :
  unique_ids (indexing_ T_mat T_row_index T_col_index).
Proof.
  assert (∀ self us im n,
    let a0 := get_unique_matrix_accesses (mat_ self) [] ∅ 0 in
    let mat_ids := map (λ i, i + n) a0.1.1 in
    let a1 := get_unique_matrix_accesses (row_index_ self)
                (us ++ mat_ids) im (n + a0.2) in
    let a2 := get_unique_matrix_accesses (col_index_ self)
                a1.1.1 a1.1.2 a1.2 in
    get_unique_matrix_accesses self us im n = a2
    ∧ 0 ≤ a0.2 ∧ n + a0.2 ≤ a1.2 ∧ a1.2 ≤ a2.2
    ∧ Forall (λ x, n ≤ x < n + a0.2) mat_ids
    ∧ (∀ k x, a1.1.2 !! k = Some x → im !! k = Some x ∨ n + a0.2 ≤ x < a1.2)
    ∧ (∀ k x, a2.1.2 !! k = Some x → a1.1.2 !! k = Some x ∨ a1.2 ≤ x < a2.2))
    as Hrun.
  { intros self us im n a0 mat_ids a1 a2.
    destruct (ids_from_zero (mat_ self)) as [Hn0 Hids0].
    fold a0 in Hn0, Hids0.
    split; [|split; [done|split; [apply ids_counter|split;
      [apply ids_counter|split; [|split; apply ids_map]]]]].
    - simpl. rewrite get_unique_matrix_accesses_run. cbv zeta. simpl.
      fold a0. fold mat_ids. fold a1. fold a2. by destruct a2 as [[??]?].
    - subst mat_ids. rewrite Forall_map.
      eapply Forall_impl; [exact Hids0|]. simpl. lia. }
  split.
  - intros self us im n.
    destruct (Hrun self us im n) as (-> & Hn0 & Hc1 & Hc2 & Hmat & Hm1 & _).
    cbv zeta in *.
    set (a0 := get_unique_matrix_accesses (mat_ self) [] ∅ 0) in *.
    set (mat_ids := map (λ i, i + n) a0.1.1) in *.
    destruct (ids_append (row_index_ self) (us ++ mat_ids) im (n + a0.2))
      as (new1 & Hnew1 & Hall1).
    set (a1 := get_unique_matrix_accesses (row_index_ self) _ _ _) in *.
    destruct (ids_append (col_index_ self) a1.1.1 a1.1.2 a1.2)
      as (new2 & Hnew2 & Hall2).
    set (a2 := get_unique_matrix_accesses (col_index_ self) _ _ _) in *.
    exists (mat_ids ++ new1 ++ new2). split.
    + rewrite Hnew2, Hnew1. by rewrite <- !app_assoc.
    + rewrite !Forall_app. split; [|split].
      * eapply Forall_impl; [exact Hmat|]. simpl. intros x Hx. right. lia.
      * eapply Forall_impl; [exact Hall1|]. simpl.
        intros x [Hx|Hx]; [by left|right; lia].
      * eapply Forall_impl; [exact Hall2|]. simpl.
        intros x [[k Hk]|Hx]; [|right; lia].
        destruct (Hm1 k x Hk) as [Him|Hx]; [left; eauto|right; lia].
  - intros self us im n.
    destruct (Hrun self us im n) as (-> & Hn0 & Hc1 & Hc2 & _).
    cbv zeta in *. lia.
  - intros self us im n k x.
    destruct (Hrun self us im n) as (-> & Hn0 & Hc1 & Hc2 & _ & Hm1 & Hm2).
    cbv zeta in *. intros Hk.
    destruct (Hm2 k x Hk) as [Hk1|Hx]; [|right; lia].
    destruct (Hm1 k x Hk1) as [Him|Hx]; [by left|right; lia].
Qed.

End indexing_facts.

(** ** The factory *)

Section factory_facts.
Context `{kernel_generator}.
Context {T_mat T_row_index T_col_index : Type}.
Context `{!kernel_expression T_mat, !kernel_expression T_row_index,
          !kernel_expression T_col_index}.
Context `{!operation_cl_lhs (as_operation_cl_t T_mat),
          !operation_cl (as_operation_cl_t T_row_index),
          !operation_cl (as_operation_cl_t T_col_index)}.
Context {M R C : Type}.
Context `{!operation_cl_lhs M, !operation_cl R, !operation_cl C}.

Lemma indexing_inv (mat : T_mat) (row_index : T_row_index)
    (col_index : T_col_index) node :
  indexing mat row_index col_index = mret node →
  ∃ m, deep_copy (as_operation_cl mat) = mret m
       ∧ node = constructed m (as_operation_cl row_index)
                  (as_operation_cl col_index).
Proof.
  unfold indexing.
  destruct (deep_copy (as_operation_cl mat)) as [e|m]; [done|]. simpl.
  intros Hnew. exists m. split; [done|].
  by destruct (indexing_new_inv _ _ _ _ Hnew) as (-> & _).
Qed.

Lemma indexing_deep_copy_inv (self copy : indexing_ M R C) :
  indexing_deep_copy self = mret copy →
  ∃ m r c, deep_copy (mat_ self) = mret m
           ∧ deep_copy (row_index_ self) = mret r
           ∧ deep_copy (col_index_ self) = mret c
           ∧ copy = constructed m r c.
Proof.
  unfold indexing_deep_copy. simpl.
  destruct (deep_copy (mat_ self)) as [e|m]; [done|].
  destruct (deep_copy (row_index_ self)) as [e|r]; [done|].
  destruct (deep_copy (col_index_ self)) as [e|c]; [done|]. simpl.
  intros Hnew. exists m, r, c. repeat split; try done.
  by destruct (indexing_new_inv _ _ _ _ Hnew) as (-> & _).
Qed.

(** C8.  The node the factory returns holds, as its indexed matrix, the
    deep copy of the operation form of the matrix argument, and as its
    indices the operation forms of the index arguments themselves; when
    the deep copy throws, so does the factory.  The deep copy of a node is
    built from the deep copies of its three operands, with a fresh
    [var_name_] and [generated_]. *)
Theorem indexing_deep_copies_matrix
    (mat : T_mat) (row_index : T_row_index) (col_index : T_col_index)
    (self : indexing_ M R C) :
  indexing mat row_index col_index
  = (mat_operation ← deep_copy (as_operation_cl mat);
     indexing_new mat_operation (as_operation_cl row_index)
       (as_operation_cl col_index))
  ∧ (∀ node, indexing mat row_index col_index = mret node →
       deep_copy (as_operation_cl mat) = mret (mat_ node)
       ∧ row_index_ node = as_operation_cl row_index
       ∧ col_index_ node = as_operation_cl col_index)
  ∧ (∀ e : exception, deep_copy (as_operation_cl mat) = mthrow e →
       indexing mat row_index col_index = mthrow e)
  ∧ (∀ copy, indexing_deep_copy self = mret copy →
       deep_copy (mat_ self) = mret (mat_ copy)
       ∧ deep_copy (row_index_ self) = mret (row_index_ copy)
       ∧ deep_copy (col_index_ self) = mret (col_index_ copy)
       ∧ var_name_ copy = ""
       ∧ generated_ copy = ∅).
Proof.
  split; [done|]. split; [|split].
  - intros node Hnode.
    by destruct (indexing_inv _ _ _ _ Hnode) as (m & -> & ->).
  - intros e He. unfold indexing. by rewrite He.
  - intros copy Hcopy.
    by destruct (indexing_deep_copy_inv _ _ Hcopy)
      as (m & r & c & -> & -> & -> & ->).
Qed.

End factory_facts.

(** ** The leaf, the device and the scenarios *)

#[global] Instance load_dedup_codegen : dedup_codegen load_.
Proof.
  split; simpl; unfold load_get_kernel_parts.
  - by intros this t g ng rn cn vh [v ->].
  - intros this t g ng rn cn vh. destruct (g !! this) eqn:Hg; simpl.
    + rewrite Hg. eauto.
    + rewrite lookup_insert_eq. eauto.
  - intros this t g ng rn cn vh k Hk. destruct (g !! this) eqn:Hg; simpl.
    + done.
    + destruct (decide (this = k)) as [->|Hne].
      * rewrite lookup_insert_eq. eauto.
      * by rewrite lookup_insert_ne.
Qed.




Lemma exec_load params v r c env m i j :
  params !! v = Some m →
  index_value env r = Some i →
  index_value env c = Some j →
  exec params (stmt_load v r c) env
  = (x ← element m i j; Some (<[v := x]> env)).
Proof. intros Hm Hi Hj. simpl. by rewrite Hm, Hi, Hj. Qed.

(** What the kernel of an indexing of three buffers computes at a
    position: the element of the matrix at the row and the column found
    at that position of the two indices. *)
Lemma evaluate_indexing_of_buffers (mat row col : matrix_cl)
    (node : indexing_ load_ load_ load_) (i j : Z) :
  indexing mat row col = mret node →
  evaluate 0%N node i j
  = (ri ← element row i j; ci ← element col i j; element mat ri ci).
Proof.
  intros Hnode.
  destruct (indexing_inv (T_mat:=matrix_cl) (T_row_index:=matrix_cl)
              (T_col_index:=matrix_cl) _ _ _ _ Hnode) as (m & [= <-] & ->).
  unfold evaluate.
  vm_compute get_kernel_parts. cbv beta iota zeta.
  vm_compute set_args. cbv beta iota zeta.
  match goal with
  | |- context [parameters ?a ?k] => set (params := parameters a k)
  end.
  assert (params !! "var1" = Some row) as Hp1 by (vm_compute; reflexivity).
  assert (params !! "var2" = Some col) as Hp2 by (vm_compute; reflexivity).
  assert (params !! "var3" = Some mat) as Hp3 by (vm_compute; reflexivity).
  clearbody params.
  unfold run, body, var_name_of.
  cbn [foldl mbind option_bind indexing_operation_cl var_name_].
  rewrite (exec_load _ _ _ _ _ _ i j Hp1) by reflexivity.
  destruct (element row i j) as [ri|]; [|done]. cbn [mbind option_bind].
  rewrite (exec_load _ _ _ _ _ _ i j Hp2) by reflexivity.
  destruct (element col i j) as [ci|]; [|done]. cbn [mbind option_bind].
  rewrite (exec_load _ _ _ _ _ _ ri ci Hp3) by reflexivity.
  destruct (element mat ri ci) as [x|]; [|done]. cbn [mbind option_bind].
  reflexivity.
Qed.

(** C1.  Scenario 1: a 3x3 matrix indexed with the row indices
    [[0,1],[2,0]] and the column indices [[0,0],[1,2]].  The factory
    returns a node of 2 rows and 2 columns; evaluated at a position, it
    yields the element of the matrix at the row and column the two
    indices hold at that position; in particular the element (0,0) of the
    matrix at position (0,0) and the element (0,2) at position (1,1). *)
Theorem scenario_1_gather (m00 m01 m02 m10 m11 m12 m20 m21 m22 : Z) :
  let mat := scenario_mat m00 m01 m02 m10 m11 m12 m20 m21 m22 in
  let node := scenario_node m00 m01 m02 m10 m11 m12 m20 m21 m22 in
  indexing mat scenario_row_index scenario_col_index = mret node
  ∧ indexing_rows node = 2 ∧ indexing_cols node = 2
  ∧ (∀ i j, evaluate 0%N node i j
            = (ri ← element scenario_row_index i j;
               ci ← element scenario_col_index i j;
               element mat ri ci))
  ∧ evaluate 0%N node 0 0 = Some m00
  ∧ evaluate 0%N node 0 1 = Some m10
  ∧ evaluate 0%N node 1 0 = Some m21
  ∧ evaluate 0%N node 1 1 = Some m02.
Proof.
  intros mat node.
  assert (indexing mat scenario_row_index scenario_col_index = mret node)
    as Hnode by reflexivity.
  split; [done|]. split; [done|]. split; [done|].
  split; [intros i j; by apply evaluate_indexing_of_buffers|].
  rewrite !(evaluate_indexing_of_buffers _ _ _ _ _ _ Hnode).
  done.
Qed.

(** ** The properties at work on the scenarios *)

(** Construction: an index of three rows against one of two throws on the
    rows; one of three columns against one of two throws; a one-row index
    broadcast along the rows is accepted next to a two-row sibling. *)
Lemma indexing_new_shape_mismatch_witness :
  let mat := load_of example_mat in
  let row_index := load_of scenario_row_index in
  let broadcast : rowwise_broadcast_ load_ :=
    {| broadcast_arg := load_of scenario_row_vector |} in
  indexing_new mat row_index (load_of tall_col_index)
  = mthrow (invalid_argument "indexing" "Rows of " "col_index" 3
              "rows of " "row_index" 2)
  ∧ is_ok (indexing_new mat row_index (load_of wide_col_index))
    = false
  ∧ indexing_new mat broadcast (load_of scenario_col_index)
    = mret (constructed mat broadcast (load_of scenario_col_index)).
Proof.
  intros mat row_index broadcast.
  split; [|split].
  - destruct (indexing_new_shape_mismatch mat row_index
                (load_of tall_col_index)) as (Hrows & _).
    apply Hrows; vm_compute; discriminate.
  - destruct (indexing_new_shape_mismatch mat row_index
                (load_of wide_col_index)) as (_ & Hcols & _).
    apply Hcols; vm_compute; discriminate.
  - destruct (indexing_new_shape_mismatch mat broadcast
                (load_of scenario_col_index))
      as (_ & _ & Hdyn & _).
    rewrite Hdyn; [reflexivity|]. right. reflexivity.
Defined.

(** Shape: the node of scenario 1 has two rows and two columns, and so
    has the node whose row index is one row broadcast against the two
    rows of the column index. *)
Lemma indexing_rows_cols_max_witness :
  let broadcast : rowwise_broadcast_ load_ :=
    {| broadcast_arg := load_of scenario_row_vector |} in
  indexing_rows example_node = 2 ∧ indexing_cols example_node = 2
  ∧ indexing_rows (constructed (load_of example_mat) broadcast
                     (load_of scenario_col_index)) = 2.
Proof.
  intros broadcast.
  destruct (indexing_rows_cols_max (load_of example_mat)
              (load_of scenario_row_index)
              (load_of scenario_col_index) example_node)
    as (Hrows & Hcols & _); [reflexivity|].
  destruct (indexing_rows_cols_max (load_of example_mat) broadcast
              (load_of scenario_col_index)
              (constructed (load_of example_mat) broadcast
                 (load_of scenario_col_index)))
    as (Hrows' & _); [reflexivity|].
  split; [exact Hrows|]. split; [exact Hcols | exact Hrows'].
Defined.




(** The factory on scenario 1, and the deep copy of the node it
    returns. *)
Lemma indexing_deep_copies_matrix_witness :
  deep_copy (load_of example_mat) = mret (mat_ example_node)
  ∧ row_index_ example_node = load_of scenario_row_index
  ∧ col_index_ example_node = load_of scenario_col_index
  ∧ deep_copy (mat_ example_node) = mret (mat_ example_node).
Proof.
  destruct (indexing_deep_copies_matrix (T_mat:=matrix_cl)
              (T_row_index:=matrix_cl) (T_col_index:=matrix_cl)
              example_mat scenario_row_index scenario_col_index example_node)
    as (_ & Hnode & _ & Hcopy).
  destruct (Hnode example_node) as (Hm & Hr & Hc); [reflexivity|].
  destruct (Hcopy example_node) as (Hm' & _); [reflexivity|].
  repeat split; assumption.
Defined.


(** Views and events on the node of scenario 1: whatever range is asked
    for, the buffer of the indexed matrix ends with no restriction; an
    event is attached for writing to that buffer and for reading to the
    buffers of the two indices. *)
Example set_view_scenario :
  let self := state_of (indexing_set_view (-1) 0 (-1) 0 example_node) in
  view (a_ (mat_ self)) = (int_min, int_max)
  ∧ row_index_ self = row_index_ example_node
  ∧ col_index_ self = col_index_ example_node.
Proof. done. Qed.

Example add_write_event_scenario :
  let self := state_of (indexing_add_write_event 7%N example_node) in
  write_events (a_ (mat_ self)) = [7%N]
  ∧ read_events (a_ (mat_ self)) = []
  ∧ read_events (a_ (row_index_ self)) = [7%N]
  ∧ write_events (a_ (row_index_ self)) = []
  ∧ read_events (a_ (col_index_ self)) = [7%N]
  ∧ write_events (a_ (col_index_ self)) = [].
Proof. done. Qed.

(** Scenario 1 with the row index replaced by one row broadcast along the
    rows: position (i, j) reads row [[2, 1]] at column j. *)
Example broadcast_scenario :
  let broadcast : rowwise_broadcast_ load_ :=
    {| broadcast_arg := load_of scenario_row_vector |} in
  let node := constructed (load_of example_mat) broadcast
                (load_of scenario_col_index) in
  indexing_new (load_of example_mat) broadcast (load_of scenario_col_index)
  = mret node
  ∧ evaluate 0%N node 0 0 = Some 30
  ∧ evaluate 0%N node 1 1 = Some 22.
Proof. by vm_compute. Qed.

(** * Further properties of the node *)

Section indexing_more_facts.
Context `{kernel_generator} `{layout}.
Context {T_mat T_row_index T_col_index : Type}.
Context `{!operation_cl_lhs T_mat, !operation_cl T_row_index,
          !operation_cl T_col_index}.
Implicit Types (mat : T_mat) (row_index : T_row_index)
  (col_index : T_col_index) (self : indexing_ T_mat T_row_index T_col_index).
Local Abbreviation frame := (frame T_mat T_row_index T_col_index).

(** ** Assignment dimensions *)

(** X1.  [check_assign_dimensions] accepts exactly the shape the node
    reports: it returns normally when the desired rows and columns are
    [rows()] and [cols()], throws the error of the rows check when the
    rows differ (whatever the columns are), and the error of the columns
    check when only the columns differ. *)
Theorem check_assign_dimensions_exact self (r c : Z) :
  (indexing_check_assign_dimensions self r c = mret ()
   ↔ indexing_rows self = r ∧ indexing_cols self = c)
  ∧ (indexing_rows self ≠ r →
     indexing_check_assign_dimensions self r c
     = mthrow (invalid_argument "indexing_.check_assign_dimensions"
                 "Rows of " "indexing" (indexing_rows self)
                 "rows of " "expression" r))
  ∧ (indexing_rows self = r → indexing_cols self ≠ c →
     indexing_check_assign_dimensions self r c
     = mthrow (invalid_argument "indexing_.check_assign_dimensions"
                 "Columns of " "indexing" (indexing_cols self)
                 "columns of " "expression" c))
  ∧ indexing_check_assign_dimensions self
      (indexing_rows self) (indexing_cols self) = mret ().
Proof.
  unfold indexing_check_assign_dimensions, check_size_match.
  split; [|split; [|split]].
  - destruct (decide (indexing_rows self = r)) as [Hr|Hr]; simpl.
    + destruct (decide (indexing_cols self = c)) as [Hc|Hc]; simpl.
      * done.
      * split; [done|]. by intros [_ ?].
    + split; [done|]. by intros [? _].
  - intros Hr. by destruct (decide (indexing_rows self = r)).
  - intros Hr Hc. destruct (decide (indexing_rows self = r)); [simpl|done].
    by destruct (decide (indexing_cols self = c)).
  - destruct (decide (indexing_rows self = indexing_rows self)); [simpl|done].
    by destruct (decide (indexing_cols self = indexing_cols self)).
Qed.

(** ** What the matrix operand is generated with *)

(** X2.  On a node its map does not hold yet, [get_kernel_parts] hands
    the index operands the caller's index names and [view_handled], and
    hands the matrix operand the variable names the row index and the
    column index have after their own generation, with [view_handled]
    false whatever the caller passed; afterwards the node's [var_name_]
    is the variable name of the matrix operand. *)
Theorem get_kernel_parts_index_names this rn cn vh
    (fr : frame name_generator) :
  f_generated fr !! this = None →
  let r := indexing_get_kernel_parts this rn cn vh fr in
  let self' := f_self (state_of r) in
  (∃ g1,
     calls_of r
     = [call_get_kernel_parts I1 ref_generated
          (<[this := ""]> (f_generated fr)) rn cn vh;
        call_get_kernel_parts I2 ref_generated g1 rn cn vh;
        call_get_kernel_parts I0 ref_generated_ ∅
          (var_name_of (row_index_ self')) (var_name_of (col_index_ self'))
          false])
  ∧ var_name_ self' = var_name_of (mat_ self').
Proof.
  intros Hg r self'. subst self' r.
  rewrite get_kernel_parts_first by done.
  destruct (get_kernel_parts _ (row_index_ _) _ _ _ _ _)
    as [p1 [[r g1] n1]].
  destruct (get_kernel_parts _ (col_index_ _) _ _ _ _ _)
    as [p2 [[c g2] n2]].
  destruct (get_kernel_parts _ (mat_ _) _ _ _ _ _) as [p3 [[m g3] n3]].
  simpl. eauto.
Qed.

(** X3.  [get_kernel_parts_lhs] passes [view_handled] false to both index
    operands on every call, hands the matrix operand the variable names
    the two indices have after their own generation, and leaves the
    node's [var_name_] equal to the variable name of the matrix operand.
    The private map the matrix operand is handed is empty when the
    caller's map did not hold the node, and is [generated_] as it stood
    when it did. *)
Theorem get_kernel_parts_lhs_index_names this rn cn
    (fr : frame name_generator) :
  let r := indexing_get_kernel_parts_lhs this rn cn fr in
  let self' := f_self (state_of r) in
  (∃ g1,
     calls_of r
     = [call_get_kernel_parts I1 ref_generated (lhs_generated this fr)
          rn cn false;
        call_get_kernel_parts I2 ref_generated g1 rn cn false;
        call_get_kernel_parts_lhs I0 ref_generated_ (lhs_generated_ this fr)
          (var_name_of (row_index_ self')) (var_name_of (col_index_ self'))])
  ∧ omap call_view_handled (calls_of r) = [false; false]
  ∧ var_name_ self' = var_name_of (mat_ self')
  ∧ lhs_generated_ this fr
    = (if decide (is_Some (f_generated fr !! this))
       then generated_ (f_self fr) else ∅).
Proof.
  intros r self'. subst self' r.
  rewrite get_kernel_parts_lhs_run.
  destruct (get_kernel_parts _ (row_index_ _) _ _ _ _ _)
    as [p1 [[r g1] n1]].
  destruct (get_kernel_parts _ (col_index_ _) _ _ _ _ _)
    as [p2 [[c g2] n2]].
  destruct (get_kernel_parts_lhs _ (mat_ _) _ _ _ _) as [p3 [[m g3] n3]].
  simpl. split; [eauto|]. do 2 (split; [done|]).
  unfold lhs_generated_. destruct (f_generated fr !! this) eqn:Hg.
  - by rewrite decide_True by eauto.
  - rewrite decide_False; [done|]. by intros [? ?].
Qed.

(** ** The private scope *)

(** X4.  What the matrix operand is and what the node's private map holds
    never reaches the caller's map or the index operands: after
    [get_kernel_parts], [get_kernel_parts_lhs] and [set_args], the
    caller's map and the two index operands are the same for any matrix
    operand and any content of [generated_]. *)
Theorem private_scope_does_not_leak this rn cn vh mat (g : dedup_map)
    (fr : frame name_generator) (fa : frame (cl_Kernel * Z)) :
  let same {R} (a b : frame R) :=
    f_generated a = f_generated b
    ∧ row_index_ (f_self a) = row_index_ (f_self b)
    ∧ col_index_ (f_self a) = col_index_ (f_self b) in
  same (state_of (indexing_get_kernel_parts this rn cn vh (with_mat mat g fr)))
       (state_of (indexing_get_kernel_parts this rn cn vh fr))
  ∧ same (state_of (indexing_get_kernel_parts_lhs this rn cn (with_mat mat g fr)))
         (state_of (indexing_get_kernel_parts_lhs this rn cn fr))
  ∧ same (state_of (indexing_set_args this (with_mat mat g fa)))
         (state_of (indexing_set_args this fa)).
Proof.
  intros same. subst same. cbv beta.
  split; [|split].
  - destruct (f_generated fr !! this) as [v|] eqn:Hg.
    + rewrite !get_kernel_parts_again by (simpl; eauto). done.
    + rewrite !get_kernel_parts_first by done. simpl.
      destruct (get_kernel_parts _ (row_index_ _) _ _ _ _ _)
        as [p1 [[r g1] n1]].
      destruct (get_kernel_parts _ (col_index_ _) _ _ _ _ _)
        as [p2 [[c g2] n2]].
      destruct (get_kernel_parts _ mat _ _ _ _ _) as [p3 [[m g3] n3]].
      by destruct (get_kernel_parts _ (mat_ _) _ _ _ _ _)
        as [p3' [[m' g3'] n3']].
  - rewrite !get_kernel_parts_lhs_run. unfold lhs_generated. simpl.
    destruct (get_kernel_parts _ (row_index_ _) _ _ _ _ _)
      as [p1 [[r g1] n1]].
    destruct (get_kernel_parts _ (col_index_ _) _ _ _ _ _)
      as [p2 [[c g2] n2]].
    destruct (get_kernel_parts_lhs _ mat _ _ _ _) as [p3 [[m g3] n3]].
    by destruct (get_kernel_parts_lhs _ (mat_ _) _ _ _ _)
      as [p3' [[m' g3'] n3']].
  - destruct (f_generated fa !! this) as [v|] eqn:Hg.
    + rewrite !set_args_again by (simpl; eauto). done.
    + rewrite !set_args_first by done. simpl.
      destruct (set_args _ (row_index_ _) _ _) as [[] [[r g1] k1]].
      destruct (set_args _ (col_index_ _) _ _) as [[] [[c g2] k2]].
      destruct (set_args _ mat _ _) as [[] [[m g3] k3]].
      by destruct (set_args _ (mat_ _) _ _) as [[] [[m' g3'] k3']].
Qed.

(** X5.  On a node the caller's map does not hold yet, code generation
    starts afresh: the fragment, the calls and everything left behind are
    the same whatever [var_name_] and [generated_] held before, for
    reading and for writing. *)
Theorem code_generation_starts_afresh this rn cn vh (v : string)
    (g : dedup_map) (fr : frame name_generator) :
  f_generated fr !! this = None →
  indexing_get_kernel_parts this rn cn vh (with_members v g fr)
  = indexing_get_kernel_parts this rn cn vh fr
  ∧ indexing_get_kernel_parts_lhs this rn cn (with_members v g fr)
    = indexing_get_kernel_parts_lhs this rn cn fr.
Proof.
  intros Hg. split.
  - by rewrite !get_kernel_parts_first by done.
  - rewrite !get_kernel_parts_lhs_run.
    unfold lhs_generated, lhs_generated_. simpl. by rewrite Hg.
Qed.

(** ** Argument binding *)

Lemma set_args_keeps this (fa : frame (cl_Kernel * Z)) k
    `{!keeps_set_args T_row_index, !keeps_set_args T_col_index} :
  is_Some (f_generated fa !! k) ∨ k = this →
  is_Some (f_generated (state_of (indexing_set_args this fa)) !! k).
Proof.
  intros Hk. destruct (f_generated fa !! this) as [v|] eqn:Hg.
  { rewrite set_args_again by eauto. simpl.
    destruct Hk as [Hk| ->]; [done|eauto]. }
  rewrite set_args_first by done.
  pose proof (args_keeps (T:=T_row_index) (arg_addr this I1)
                (row_index_ (f_self fa)) (<[this := ""]> (f_generated fa))
                (f_rest fa) k) as Hk1.
  destruct (set_args _ (row_index_ _) _ _) as [[] [[r g1] k1]].
  simpl in Hk1.
  pose proof (args_keeps (T:=T_col_index) (arg_addr this I2)
                (col_index_ (f_self fa)) g1 k1 k) as Hk2.
  destruct (set_args _ (col_index_ _) _ _) as [[] [[c g2] k2]].
  simpl in Hk2.
  destruct (set_args _ (mat_ _) _ _) as [[] [[m g3] k3]].
  simpl. apply Hk2, Hk1. destruct Hk as [Hk| ->].
  - destruct (decide (this = k)) as [->|Hne].
    + rewrite lookup_insert_eq. eauto.
    + by rewrite lookup_insert_ne.
  - rewrite lookup_insert_eq. eauto.
Qed.

Lemma get_kernel_parts_lhs_keeps this rn cn (fr : frame name_generator) k
    `{!dedup_codegen T_row_index, !dedup_codegen T_col_index} :
  is_Some (f_generated fr !! k) ∨ k = this →
  is_Some (f_generated
             (state_of (indexing_get_kernel_parts_lhs this rn cn fr)) !! k).
Proof.
  intros Hk. rewrite get_kernel_parts_lhs_run.
  pose proof (gkp_keeps (T:=T_row_index) (arg_addr this I1)
                (row_index_ (f_self fr)) (lhs_generated this fr)
                (f_rest fr) rn cn false k) as Hk1.
  destruct (get_kernel_parts _ (row_index_ _) _ _ _ _ _)
    as [p1 [[r g1] n1]]. simpl in Hk1.
  pose proof (gkp_keeps (T:=T_col_index) (arg_addr this I2)
                (col_index_ (f_self fr)) g1 n1 rn cn false k) as Hk2.
  destruct (get_kernel_parts _ (col_index_ _) _ _ _ _ _)
    as [p2 [[c g2] n2]]. simpl in Hk2.
  destruct (get_kernel_parts_lhs _ (mat_ _) _ _ _ _) as [p3 [[m g3] n3]].
  simpl. apply Hk2, Hk1. unfold lhs_generated.
  destruct (f_generated fr !! this) as [v|] eqn:Hg.
  - destruct Hk as [Hk| ->]; [done|eauto].
  - destruct Hk as [Hk| ->].
    + destruct (decide (this = k)) as [->|Hne].
      * rewrite lookup_insert_eq. eauto.
      * by rewrite lookup_insert_ne.
    + rewrite lookup_insert_eq. eauto.
Qed.

(** X6.  [set_args] never changes the node's [var_name_] or [generated_].
    Against a map that holds the node it binds nothing: the kernel, the
    argument counter, the map and the node stay as they are and no
    operand is called.  When argument binding of the index operands
    removes nothing from the map, a second [set_args] on what the first
    one left binds nothing. *)
Theorem set_args_binds_once this (fa : frame (cl_Kernel * Z)) :
  var_name_ (f_self (state_of (indexing_set_args this fa)))
  = var_name_ (f_self fa)
  ∧ generated_ (f_self (state_of (indexing_set_args this fa)))
    = generated_ (f_self fa)
  ∧ (is_Some (f_generated fa !! this) →
     indexing_set_args this fa = ((), fa, []))
  ∧ (keeps_set_args T_row_index → keeps_set_args T_col_index →
     let first := indexing_set_args this fa in
     indexing_set_args this (state_of first) = ((), state_of first, [])).
Proof.
  assert (var_name_ (f_self (state_of (indexing_set_args this fa)))
          = var_name_ (f_self fa)
          ∧ generated_ (f_self (state_of (indexing_set_args this fa)))
            = generated_ (f_self fa)) as [Hv Hg].
  { destruct (f_generated fa !! this) as [v|] eqn:Hg.
    - by rewrite set_args_again by eauto.
    - rewrite set_args_first by done.
      destruct (set_args _ (row_index_ _) _ _) as [[] [[r g1] k1]].
      destruct (set_args _ (col_index_ _) _ _) as [[] [[c g2] k2]].
      by destruct (set_args _ (mat_ _) _ _) as [[] [[m g3] k3]]. }
  do 2 (split; [done|]). split; [apply set_args_again|].
  intros Hrow Hcol first.
  apply set_args_again, set_args_keeps; [done..|by right].
Qed.

(** ** What the caller's map holds afterwards *)

(** X7.  When the index operands remove nothing from the map they are
    handed, [get_kernel_parts], [get_kernel_parts_lhs] and [set_args]
    remove nothing either, and each leaves the node's own address in the
    caller's map. *)
Theorem caller_map_grows this rn cn vh
    (fr : frame name_generator) (fa : frame (cl_Kernel * Z)) (k : addr) :
  dedup_codegen T_row_index → dedup_codegen T_col_index →
  keeps_set_args T_row_index → keeps_set_args T_col_index →
  let read := state_of (indexing_get_kernel_parts this rn cn vh fr) in
  let write := state_of (indexing_get_kernel_parts_lhs this rn cn fr) in
  let bind := state_of (indexing_set_args this fa) in
  is_Some (f_generated read !! this)
  ∧ is_Some (f_generated write !! this)
  ∧ is_Some (f_generated bind !! this)
  ∧ (is_Some (f_generated fr !! k) →
     is_Some (f_generated read !! k) ∧ is_Some (f_generated write !! k))
  ∧ (is_Some (f_generated fa !! k) → is_Some (f_generated bind !! k)).
Proof.
  intros Hrow Hcol Hrow' Hcol' read write bind. subst read write bind.
  split; [apply get_kernel_parts_keeps; [done..|by right]|].
  split; [apply get_kernel_parts_lhs_keeps; [done..|by right]|].
  split; [apply set_args_keeps; [done..|by right]|].
  split.
  - intros Hk. split.
    + apply get_kernel_parts_keeps; [done..|by left].
    + apply get_kernel_parts_lhs_keeps; [done..|by left].
  - intros Hk. apply set_args_keeps; [done..|by left].
Qed.

(** ** Construction and copies *)

(** X8.  The constructor never looks at the indexed matrix: the outcome
    of construction, the error included, is the same for any two matrix
    operands, whatever their shapes. *)
Theorem indexing_new_ignores_mat mat (mat' : T_mat) row_index col_index :
  match indexing_new mat row_index col_index,
        indexing_new mat' row_index col_index with
  | inl e, inl e' => e = e'
  | inr self, inr self' =>
      self = put_arg I0 mat self'
      ∧ indexing_rows self = indexing_rows self'
      ∧ indexing_cols self = indexing_cols self'
  | _, _ => False
  end.
Proof.
  rewrite !indexing_new_checks.
  destruct (rows_check row_index col_index) as [e|[]]; [done|].
  destruct (cols_check row_index col_index) as [e|[]]; [done|].
  done.
Qed.

(** X9.  The deep copy of a constructed node is built from the deep
    copies of its operands, first the matrix, then the row index, then
    the column index: the first of these to throw makes [deep_copy] throw
    the same.  When all three succeed and the copies of the indices
    report the rows and columns of the originals, [deep_copy] succeeds,
    and the copy has the shape of the original, an empty [var_name_] and
    an empty [generated_]. *)
Theorem indexing_deep_copy_keeps_shape mat row_index col_index self
    (mat' : T_mat) (row_index' : T_row_index) (col_index' : T_col_index) :
  indexing_new mat row_index col_index = mret self →
  (∀ e : exception, deep_copy mat = mthrow e →
     indexing_deep_copy self = mthrow e)
  ∧ (∀ e : exception, deep_copy mat = mret mat' →
       deep_copy row_index = mthrow e →
       indexing_deep_copy self = mthrow e)
  ∧ (∀ e : exception, deep_copy mat = mret mat' →
       deep_copy row_index = mret row_index' →
       deep_copy col_index = mthrow e →
       indexing_deep_copy self = mthrow e)
  ∧ (deep_copy mat = mret mat' →
     deep_copy row_index = mret row_index' →
     deep_copy col_index = mret col_index' →
     rows row_index' = rows row_index → cols row_index' = cols row_index →
     rows col_index' = rows col_index → cols col_index' = cols col_index →
     ∃ copy, indexing_deep_copy self = mret copy
             ∧ mat_ copy = mat' ∧ row_index_ copy = row_index'
             ∧ col_index_ copy = col_index'
             ∧ var_name_ copy = "" ∧ generated_ copy = ∅
             ∧ indexing_rows copy = indexing_rows self
             ∧ indexing_cols copy = indexing_cols self).
Proof.
  intros Hnew.
  destruct (indexing_new_inv _ _ _ _ Hnew) as (-> & Hrows & Hcols).
  unfold indexing_deep_copy. simpl.
  split; [|split; [|split]].
  - by intros e ->.
  - by intros e -> ->.
  - by intros e -> -> ->.
  - intros -> -> -> Hr1 Hc1 Hr2 Hc2. simpl.
    exists (constructed mat' row_index' col_index').
    assert (rows_check row_index' col_index' = mret ()) as Hrows'.
    { unfold rows_check in *. by rewrite Hr1, Hr2. }
    assert (cols_check row_index' col_index' = mret ()) as Hcols'.
    { unfold cols_check in *. by rewrite Hc1, Hc2. }
    split.
    { rewrite indexing_new_checks, Hrows', Hcols'. done. }
    do 5 (split; [done|]).
    unfold indexing_rows, indexing_cols. simpl.
    by rewrite Hr1, Hr2, Hc1, Hc2.
Qed.

End indexing_more_facts.

(** ** Gathers on buffers *)

#[global] Instance load_keeps_set_args : keeps_set_args load_.
Proof.
  intros this t g [kernel arg_num] k Hk. simpl.
  destruct (g !! this) eqn:Hg; simpl; [done|].
  destruct (decide (this = k)) as [->|Hne].
  - rewrite lookup_insert_eq. eauto.
  - by rewrite lookup_insert_ne.
Qed.



(** X12.  For any three buffers, the parameters the generated fragment
    declares and the slots [set_args] binds line up: the parameter named
    after the variable of the row index is bound to the buffer of the
    row index, and likewise for the column index and the matrix, and the
    argument counter ends at the number of declared parameters. *)
Theorem parameters_bound_in_declaration_order (mat row col : matrix_cl)
    (vh : bool) :
  let node := constructed (load_of mat) (load_of row) (load_of col) in
  let gen := get_kernel_parts 0%N node ∅ 0%N "i" "j" vh in
  let bound := set_args 0%N gen.2.1.1 ∅ (∅, 0) in
  let params := parameters (args gen.1) bound.2.2.1 in
  params !! var_name_of (row_index_ gen.2.1.1) = Some row
  ∧ params !! var_name_of (col_index_ gen.2.1.1) = Some col
  ∧ params !! var_name_of (mat_ gen.2.1.1) = Some mat
  ∧ Z.of_nat (length (args gen.1)) = bound.2.2.2.
Proof. intros node gen bound params. vm_compute. done. Qed.

(** ** The further properties at work on the scenarios *)

Lemma check_assign_dimensions_exact_witness :
  indexing_check_assign_dimensions example_node 2 2 = mret ()
  ∧ indexing_check_assign_dimensions example_node 3 5
    = mthrow (invalid_argument "indexing_.check_assign_dimensions"
                "Rows of " "indexing" 2 "rows of " "expression" 3)
  ∧ indexing_check_assign_dimensions example_node 2 5
    = mthrow (invalid_argument "indexing_.check_assign_dimensions"
                "Columns of " "indexing" 2 "columns of " "expression" 5).
Proof.
  split; [|split].
  - destruct (check_assign_dimensions_exact example_node 2 2) as (Hiff & _).
    apply Hiff. split; reflexivity.
  - destruct (check_assign_dimensions_exact example_node 3 5)
      as (_ & Hrows & _).
    apply Hrows. vm_compute. discriminate.
  - destruct (check_assign_dimensions_exact example_node 2 5)
      as (_ & _ & Hcols & _).
    apply Hcols; [reflexivity|]. vm_compute. discriminate.
Defined.

Lemma get_kernel_parts_index_names_witness :
  let fr : frame load_ load_ load_ name_generator :=
    enter example_node ∅ 0%N in
  let self' :=
    f_self (state_of (indexing_get_kernel_parts 0%N "i" "j" true fr)) in
  var_name_ self' = var_name_of (mat_ self').
Proof.
  intros fr self'.
  destruct (get_kernel_parts_index_names 0%N "i" "j" true fr) as (_ & Hname);
    [reflexivity|].
  exact Hname.
Defined.

Lemma code_generation_starts_afresh_witness :
  let fr : frame load_ load_ load_ name_generator :=
    enter example_node ∅ 0%N in
  indexing_get_kernel_parts 0%N "i" "j" true
    (with_members "var9" {[ 1%N := ""%string ]} fr)
  = indexing_get_kernel_parts 0%N "i" "j" true fr.
Proof.
  intros fr.
  destruct (code_generation_starts_afresh 0%N "i" "j" true "var9"
              {[ 1%N := ""%string ]} fr) as (Hread & _); [reflexivity|].
  exact Hread.
Defined.

Lemma set_args_binds_once_witness :
  let fa : frame load_ load_ load_ (cl_Kernel * Z) :=
    enter example_node ∅ (∅, 0) in
  let held : frame load_ load_ load_ (cl_Kernel * Z) :=
    enter example_node {[ 0%N := ""%string ]} (∅, 0) in
  let first := indexing_set_args 0%N fa in
  indexing_set_args 0%N held = ((), held, [])
  ∧ indexing_set_args 0%N (state_of first) = ((), state_of first, []).
Proof.
  intros fa held first. split.
  - destruct (set_args_binds_once 0%N held) as (_ & _ & Hheld & _).
    apply Hheld. vm_compute. eauto.
  - destruct (set_args_binds_once 0%N fa) as (_ & _ & _ & Hagain).
    exact (Hagain load_keeps_set_args load_keeps_set_args).
Defined.

Lemma caller_map_grows_witness :
  let fr : frame load_ load_ load_ name_generator :=
    enter example_node {[ 9%N := ""%string ]} 0%N in
  let fa : frame load_ load_ load_ (cl_Kernel * Z) :=
    enter example_node {[ 9%N := ""%string ]} (∅, 0) in
  is_Some (f_generated
             (state_of (indexing_get_kernel_parts 0%N "i" "j" true fr))
           !! 0%N)
  ∧ is_Some (f_generated (state_of (indexing_set_args 0%N fa)) !! 9%N).
Proof.
  intros fr fa.
  destruct (caller_map_grows 0%N "i" "j" true fr fa 9%N
              load_dedup_codegen load_dedup_codegen
              load_keeps_set_args load_keeps_set_args)
    as (Hread & _ & _ & _ & Hbind).
  split; [exact Hread|]. apply Hbind. vm_compute. eauto.
Defined.

Lemma indexing_deep_copy_keeps_shape_witness :
  ∃ copy, indexing_deep_copy example_node = mret copy
          ∧ indexing_rows copy = 2 ∧ indexing_cols copy = 2.
Proof.
  destruct (indexing_deep_copy_keeps_shape (load_of example_mat)
              (load_of scenario_row_index) (load_of scenario_col_index)
              example_node (load_of example_mat)
              (load_of scenario_row_index) (load_of scenario_col_index))
    as (_ & _ & _ & Hcopy); [reflexivity|].
  destruct Hcopy as (copy & Hc & _ & _ & _ & _ & _ & Hrows & Hcols);
    [reflexivity..|].
  exists copy. split; [exact Hc|]. split; [exact Hrows | exact Hcols].
Defined.


